(** * Verse similarity engine: a shallow embedding of
    [server/similarity_functions/similarity.py]

    The Python class [Similarity] flattens a nested corpus into a list of
    verse records, tokenizes every verse, turns every token list into one
    vector of [MAX_LEN * 200] numbers through a GloVe table, builds the
    cosine-similarity matrix of these vectors and answers "most similar
    verses" queries on that matrix.

    Layout of this file: Python strings and slices; errors; the scalar
    interface standing for numpy's float64; numpy and scikit-learn
    primitives; the class itself; then the properties. *)

From Stdlib Require Import Ascii String ZArith QArith Permutation Sorted.
From stdpp Require Import gmap strings list fin_maps sorting.
From Equations Require Import Equations.

Set Default Proof Using "Type".
Local Open Scope string_scope.
Local Open Scope list_scope.
Local Open Scope nat_scope.

(** ** Python strings *)

Module PyStr.

(** [old in s]: some suffix of [s] starts with [old]. *)
Fixpoint contains (old s : string) : bool :=
  String.prefix old s ||
  match s with
  | EmptyString => false
  | String _ s' => contains old s'
  end.

(** [drop n s] is the slice [s[n:]]. *)
Fixpoint drop (n : nat) (s : string) : string :=
  match n, s with
  | S n', String _ s' => drop n' s'
  | _, _ => s
  end.

(** [s.replace(old, new)] for a non-empty [old]: scan left to right, at
    every position where [old] starts emit [new] and jump over the
    occurrence, otherwise copy one character. *)
Equations? replace (old new s : string) : string by wf (String.length s) lt :=
  replace old new EmptyString := EmptyString;
  replace old new (String c s') with String.prefix old (String c s') := {
    | true := new +:+ replace old new (drop (String.length old - 1) s');
    | false := String c (replace old new s') }.
Proof.
  assert (Hdrop : ∀ n t, String.length (drop n t) ≤ String.length t).
  { induction n as [|n IH]; intros [|a t]; simpl; try lia.
    specialize (IH t); lia. }
  specialize (Hdrop (String.length old - 1) s'). lia.
Defined.

(** [s.endswith(ending)] *)
Definition endswith (s ending : string) : bool :=
  (String.length ending <=? String.length s)
  && String.eqb (drop (String.length s - String.length ending) s) ending.

(** [ch in s] for a single character. *)
Fixpoint has_char (ch : ascii) (s : string) : bool :=
  match s with
  | EmptyString => false
  | String c s' => bool_decide (c = ch) || has_char ch s'
  end.

(** [ch.isupper()] on ASCII. *)
Definition is_upper (ch : ascii) : bool :=
  (65 <=? nat_of_ascii ch) && (nat_of_ascii ch <=? 90).

(** Some character of [s] is an ASCII capital. *)
Fixpoint has_upper (s : string) : bool :=
  match s with
  | EmptyString => false
  | String c s' => is_upper c || has_upper s'
  end.

End PyStr.


(** [string.punctuation]: the 32 ASCII punctuation characters. Character 34
    is the double quote. *)
Definition punctuation : string :=
  "!" +:+ String (Ascii.ascii_of_nat 34) "#$%&'()*+,-./:;<=>?@[\]^_`{|}~".

(** [''.join(ch for ch in s if ch not in exclude)] *)
Fixpoint remove_chars (exclude : gset ascii) (s : string) : string :=
  match s with
  | EmptyString => EmptyString
  | String ch s' =>
      if bool_decide (ch ∈ exclude) then remove_chars exclude s'
      else String ch (remove_chars exclude s')
  end.

(** ** Python slices and exceptions *)

(** [l[:k]] for an integer [k]: a negative [k] counts from the end and is
    clamped at the start of the list. *)
Definition slice_to {A} (l : list A) (k : Z) : list A :=
  if (0 <=? k)%Z then take (Z.to_nat k) l
  else take (Z.to_nat (Z.of_nat (length l) + k)) l.

Inductive exn : Type :=
  | ValueError
  | KeyError
  | IndexError
  | AssertionError
  | TypeError
  | FileNotFoundError.

(** A call either raises or returns. *)
Definition result (A : Type) : Type := exn + A.

Definition raise {A} (e : exn) : result A := inl e.

#[global] Instance result_ret : MRet result := fun _ a => inr a.
#[global] Instance result_bind : MBind result := fun _ _ k m =>
  match m with
  | inl e => inl e
  | inr a => k a
  end.

(** [for x in l: out.append(body(x))], stopping at the first exception. *)
Fixpoint for_each {A B} (body : A → result B) (l : list A) : result (list B) :=
  match l with
  | [] => mret []
  | a :: l' => b ← body a; bs ← for_each body l'; mret (b :: bs)
  end.

(** [l[i]] with a non-negative index. *)
Definition getitem {A} (l : list A) (i : nat) : result A :=
  match l !! i with
  | Some a => mret a
  | None => raise IndexError
  end.

(** [_throw_value_error] *)
Definition _throw_value_error {A} : result A := raise ValueError.

(** ** Scalars

    The entries of vectors and of the similarity matrix are numpy float64
    values. The model is written over any type with the operations the
    code uses; the properties below say which laws of these operations
    they rely on. *)

Class Float64 (F : Type) : Type := {
  fzero : F;
  fone : F;
  fadd : F → F → F;
  fmul : F → F → F;
  fdiv : F → F → F;
  fsqrt : F → F;
  feqb : F → F → bool;
  fltb : F → F → bool;
  fisfinite : F → bool
}.

(** ** numpy and scikit-learn *)

Section Numpy.
Context {F : Type} `{Float64 F}.

(** [np.zeros(n)] *)
Definition zeros (n : nat) : list F := replicate n fzero.

(** [np.zeros((n, m))] *)
Definition zeros2 (n m : nat) : list (list F) := replicate n (zeros m).

(** Insertion of index [i] into an index list sorted by value: [i] moves
    left for as long as its value is strictly below its neighbour's. *)
Fixpoint insert_index (a : list F) (i : nat) (sorted : list nat) : list nat :=
  match sorted with
  | [] => [i]
  | j :: rest =>
      match a !! i, a !! j with
      | Some vi, Some vj =>
          if fltb vi vj then i :: j :: rest
          else j :: insert_index a i rest
      | _, _ => j :: insert_index a i rest
      end
  end.

(** Sorting the positions of [a] by insertion. This is one function
    that meets the contract of [np.argsort] stated below; it keeps
    positions of equal values in ascending order, which numpy does not
    promise. It is used to run the sample corpora only. *)
Definition insertion_argsort (a : list F) : list nat :=
  fold_left (fun sorted i => insert_index a i sorted) (seq 0 (length a)) [].

(** Inner product, summed left to right. *)
Definition dot (u v : list F) : F :=
  fold_left fadd (zip_with fmul u v) fzero.

(** Euclidean norm of a row, with a zero norm replaced by one
    ([_handle_zeros_in_scale]). *)
Definition row_norm (u : list F) : F :=
  let n := fsqrt (dot u u) in
  if feqb n fzero then fone else n.

(** [sklearn.preprocessing.normalize] on one row. *)
Definition normalize (u : list F) : list F :=
  let n := row_norm u in map (fun x => fdiv x n) u.

(** [check_array]: at least one sample and one feature, all rows of the
    same length, every entry finite. *)
Definition check_array (X : list (list F)) : bool :=
  match X with
  | [] => false
  | u :: _ =>
      negb (Nat.eqb (length u) 0)
      && forallb (fun v => Nat.eqb (length v) (length u)) X
      && forallb (forallb fisfinite) X
  end.

(** [sklearn.metrics.pairwise.cosine_similarity(X)] *)
Definition cosine_similarity (X : list (list F)) : result (list (list F)) :=
  if check_array X then
    let Xn := map normalize X in
    mret (map (fun u => map (fun v => dot u v) Xn) Xn)
  else raise ValueError.

End Numpy.

(** ** The corpus *)

(** A verse is a Python dict with the keys named in the docstrings of
    [convert_to_glove_vectors] and [get_similar_values]. The last two keys
    are absent until the pass that sets them has run. *)
Record verse_dict (F : Type) : Type := {
  verse : string;
  verse_number : string;
  text : string;
  tokenized_text : option (list string);
  vector : option (list F)
}.
Arguments verse {F} _.
Arguments verse_number {F} _.
Arguments text {F} _.
Arguments tokenized_text {F} _.
Arguments vector {F} _.

(** [d.keys()], compared as a set. *)
Definition keys {F} (d : verse_dict F) : gset string :=
  {[ "verse"; "verse_number"; "text" ]}
  ∪ (if tokenized_text d is Some _ then {[ "tokenized_text" ]} else ∅)
  ∪ (if vector d is Some _ then {[ "vector" ]} else ∅).

(** The parsed JSON file: books hold chapters under ['data'], chapters hold
    verses under ['verses']. *)
Record chapter (F : Type) : Type := { verses : list (verse_dict F) }.
Arguments verses {F} _.
Record book (F : Type) : Type := { data : list (chapter F) }.
Arguments data {F} _.

(** The attributes of a [Similarity] object that outlive [__init__].
    [glove_words] is not set in the testing environment. *)
Record Similarity (F : Type) : Type := {
  verse_data : list (verse_dict F);
  bible_verses : list (verse_dict F);
  sim_matrix : list (list F);
  glove_words : option (gmap string (list F))
}.
Arguments verse_data {F} _.
Arguments bible_verses {F} _.
Arguments sim_matrix {F} _.
Arguments glove_words {F} _.

(** A path handed to the constructor, with what the file system holds
    there once parsed: [None] when [os.path.isfile] is false. *)
Record file (A : Type) : Type := { file_path : string; contents : option A }.
Arguments file_path {A} _.
Arguments contents {A} _.

(** [_check_file] *)
Definition _check_file {A} (f : file A) (ending : string) : bool :=
  PyStr.endswith (file_path f) ending && bool_decide (is_Some (contents f)).

(** [json.load(open(path))], [pd.read_table(path, ...)] *)
Definition load {A} (f : file A) : result A :=
  match contents f with
  | Some d => mret d
  | None => raise FileNotFoundError
  end.

Definition MAX_LEN : nat := 24.

(** ** The class *)

Section Class.
Context {F : Type} `{Float64 F}.

(** [nltk.tokenize.word_tokenize] and [stopwords.words('english')] come
    from NLTK and its data files. *)
Variable word_tokenize : string → list string.
Variable english_stopwords : list string.

(** [np.argsort] on a one-dimensional array comes from numpy. Its default
    kind returns the positions of the array in ascending order of value
    and does not say in which order positions of equal values come; the
    properties below state what they assume of it. *)
Variable argsort : list F → list nat.

(** [self.stopwords_list] and [self.exclude] *)
Definition stopwords_list : gset string := list_to_set english_stopwords.
Definition exclude : gset ascii := list_to_set (list_ascii_of_string punctuation).

(** The loop over [tokenized_text] in [tokenize_data]. *)
Fixpoint final_text (tokenized_text : list string) : list string :=
  match tokenized_text with
  | [] => []
  | val :: rest =>
      if bool_decide (val ∈ stopwords_list) then final_text rest
      else
        let val :=
          if PyStr.contains "Yahweh" val
          then PyStr.replace "Yahweh" "God" val else val in
        val :: final_text rest
  end.

Definition tokenize_verse (v : verse_dict F) : verse_dict F :=
  let stripped := remove_chars exclude (text v) in
  let tokenized := word_tokenize stripped in
  {| verse := verse v; verse_number := verse_number v; text := text v;
     tokenized_text := Some (final_text tokenized); vector := vector v |}.

Definition tokenize_data (verse_data : list (verse_dict F)) : list (verse_dict F) :=
  map tokenize_verse verse_data.

(** [get_glove_vector]: the row of the table, or [ValueError]. *)
Definition get_glove_vector (glove : gmap string (list F)) (word : string)
  : result (list F) :=
  match glove !! word with
  | Some row => mret row
  | None => _throw_value_error
  end.

(** One round of the loop over words: [try ... except ValueError]. *)
Definition append_word (glove : gmap string (list F)) (vector : list F)
    (word : string) : result (list F) :=
  match get_glove_vector glove word with
  | inr row => mret (vector ++ row)
  | inl ValueError => mret (vector ++ zeros 200)
  | inl e => raise e
  end.

Fixpoint append_words (glove : gmap string (list F)) (vector : list F)
    (words : list string) : result (list F) :=
  match words with
  | [] => mret vector
  | word :: rest =>
      vector ← append_word glove vector word;
      append_words glove vector rest
  end.

Definition glove_verse (glove : gmap string (list F)) (v : verse_dict F)
  : result (verse_dict F) :=
  tokens ← match tokenized_text v with
           | Some t => mret t
           | None => raise KeyError
           end;
  vector ← append_words glove [] (take MAX_LEN tokens);
  let vector :=
    if length vector <? MAX_LEN * 200
    then vector ++ zeros (MAX_LEN * 200 - length vector)
    else vector in
  mret {| verse := verse v; verse_number := verse_number v; text := text v;
          tokenized_text := tokenized_text v; vector := Some vector |}.

Definition convert_to_glove_vectors (glove : gmap string (list F))
    (verse_data : list (verse_dict F)) : result (list (verse_dict F)) :=
  for_each (glove_verse glove) verse_data.

(** [assert self.verse_data[0].keys() != self.bible_verses[0].keys()] *)
Definition assert_keys_differ (verse_data bible_verses : list (verse_dict F))
  : result unit :=
  v ← getitem verse_data 0;
  b ← getitem bible_verses 0;
  if bool_decide (keys v ≠ keys b) then mret tt else raise AssertionError.

(** The three nested loops of [__init__] that fill [verse_data]. *)
Definition flatten (bible_data : list (book F)) : list (verse_dict F) :=
  flat_map (fun book => flat_map (fun chapter => verses chapter) (data book))
           bible_data.

(** [[verse['vector'] for verse in verse_data]] *)
Definition vectors_of (verse_data : list (verse_dict F)) : result (list (list F)) :=
  for_each (fun verse => match vector verse with
                         | Some v => mret v
                         | None => raise KeyError
                         end) verse_data.

(** [__init__]. [copy.deepcopy] is the identity on values; the display copy shares nothing with the
    working copy, so the in-place updates of the two passes do not
    reach it. In the testing environment both attributes are the same
    list and nothing is updated afterwards. *)
Definition __init__ (bible_file : file (list (book F)))
    (glove_file : file (gmap string (list F))) (_testing : bool)
  : result (Similarity F) :=
  bible_data ← (if _check_file bible_file ".json" then load bible_file
                else _throw_value_error);
  let verse_data := flatten bible_data in
  if _testing then
    mret {| verse_data := verse_data; bible_verses := verse_data;
            sim_matrix := zeros2 (length verse_data) (length verse_data);
            glove_words := None |}
  else
    glove_words ← (if _check_file glove_file ".txt" then load glove_file
                   else _throw_value_error);
    let bible_verses := verse_data in
    let verse_data := tokenize_data verse_data in
    _ ← assert_keys_differ verse_data bible_verses;
    verse_data ← convert_to_glove_vectors glove_words verse_data;
    _ ← assert_keys_differ verse_data bible_verses;
    vectors ← vectors_of verse_data;
    sim_matrix ← cosine_similarity vectors;
    mret {| verse_data := verse_data; bible_verses := bible_verses;
            sim_matrix := sim_matrix; glove_words := Some glove_words |}.

(** The search loop of [get_similar_values]: the first index whose
    ['verse'] equals the reference, [None] when the loop ends without a
    match. *)
Fixpoint find_verse (verse_data : list (verse_dict F)) (reference : string)
    (index : nat) : option nat :=
  match verse_data with
  | [] => None
  | verse_text :: rest =>
      if bool_decide (verse verse_text = reference) then Some index
      else find_verse rest reference (S index)
  end.

(** [get_similar_values]. With [proper_index = None], numpy reads
    [sim_matrix[None]] as the matrix under one more leading axis; its
    slice [[1:]] along that axis is empty, and so are the index array
    and the loop over it. *)
Definition get_similar_values (self : Similarity F) (verse : string)
    (total_values : Z) : result (list (verse_dict F)) :=
  let proper_index := find_verse (verse_data self) verse 0 in
  match proper_index with
  | Some p =>
      row ← getitem (sim_matrix self) p;
      let sim_text := drop 1 row in
      let final_indices := slice_to (reverse (argsort sim_text)) total_values in
      for_each (fun i => getitem (bible_verses self) i) final_indices
  | None =>
      let sim_text := drop 1 [sim_matrix self] in
      let final_indices :=
        slice_to (reverse (map (map argsort) sim_text)) total_values in
      for_each (fun i : list (list nat) => raise TypeError) final_indices
  end.

End Class.

(** The default of [total_values]. *)
Definition default_total_values : Z := 10.

(** ** Closed forms used to state the properties *)

Section ClosedForms.
Context {F : Type} `{Float64 F}.

(** The contract of [np.argsort]: every position is returned exactly
    once, and no position comes before one of strictly smaller value. *)
Definition argsort_permutes (argsort : list F → list nat) : Prop :=
  ∀ a, Permutation (argsort a) (seq 0 (length a)).

Definition argsort_ascending (argsort : list F → list nat) : Prop :=
  ∀ a p q i j x y,
    p < q → argsort a !! p = Some i → argsort a !! q = Some j →
    a !! i = Some x → a !! j = Some y → fltb y x = false.

(** What one token adds to the vector: its row, or 200 zeros. *)
Definition word_row (glove : gmap string (list F)) (word : string) : list F :=
  match glove !! word with
  | Some row => row
  | None => zeros 200
  end.

(** The vector of a verse with the given tokens. *)
Definition padded (glove : gmap string (list F)) (tokens : list string) : list F :=
  let vector := flat_map (word_row glove) (take MAX_LEN tokens) in
  if length vector <? MAX_LEN * 200
  then vector ++ zeros (MAX_LEN * 200 - length vector) else vector.


(** The ranked positions for a query row: [final_indices]. *)
Definition ranked (argsort : list F → list nat) (row : list F)
    (total_values : Z) : list nat :=
  slice_to (reverse (argsort (drop 1 row))) total_values.



End ClosedForms.

(** ** What the two passes leave in a record *)

Section PassClosedForms.
Context {F : Type} `{Float64 F}.
Variable word_tokenize : string → list string.
Variable english_stopwords : list string.

(** The tokens [tokenize_data] stores for a record. *)
Definition tokens_of (b : verse_dict F) : list string :=
  final_text english_stopwords (word_tokenize (remove_chars exclude (text b))).

(** A record after [tokenize_data] and [convert_to_glove_vectors]. *)
Definition built_verse (glove : gmap string (list F)) (b : verse_dict F)
  : verse_dict F :=
  {| verse := verse b; verse_number := verse_number b; text := text b;
     tokenized_text := Some (tokens_of b);
     vector := Some (padded glove (tokens_of b)) |}.

(** The matrix [cosine_similarity] returns for the rows [X]. *)
Definition gram (X : list (list F)) : list (list F) :=
  map (fun u => map (fun v => dot u v) (map normalize X)) (map normalize X).

End PassClosedForms.

(** ** A concrete instance: exact rationals and a three-verse corpus

    Used to run the definitions. Rationals are kept in lowest terms; the
    square root is the integer square root of numerator times denominator
    over the denominator, exact on squares of rationals. *)

Module Sample.

Definition Qsqrt (x : Q) : Q :=
  Qred (Z.sqrt (Qnum x * Z.pos (Qden x)) # Qden x).

#[global] Instance Q_float64 : Float64 Q := {|
  fzero := 0%Q;
  fone := 1%Q;
  fadd := fun x y => Qred (x + y);
  fmul := fun x y => Qred (x * y);
  fdiv := fun x y => Qred (x / y);
  fsqrt := Qsqrt;
  feqb := Qeq_bool;
  fltb := fun x y => negb (Qle_bool y x);
  fisfinite := fun _ => true
|}.

(** Split at spaces. *)
Fixpoint split_spaces (word : string) (s : string) : list string :=
  match s with
  | EmptyString => if bool_decide (word = "") then [] else [word]
  | String c s' =>
      if bool_decide (c = " "%char)
      then (if bool_decide (word = "") then [] else [word]) ++ split_spaces "" s'
      else split_spaces (word +:+ String c "") s'
  end.

Definition word_tokenize : string → list string := split_spaces "".

Definition english_stopwords : list string :=
  ["i"; "me"; "my"; "the"; "is"; "and"; "a"; "in"; "of"].

(** A 200-dimensional row with the given leading entries. *)
Definition row (leading : list Q) : list Q :=
  leading ++ replicate (200 - length leading) 0%Q.

Definition glove : gmap string (list Q) :=
  {[ "God" := row [3; 4]; "created" := row [12]; "shepherd" := row [0; 12];
     "Jesus" := row [4; 3]; "wept" := row [12] ]}%Q.

Definition v (ref txt : string) : verse_dict Q :=
  {| verse := ref; verse_number := ""; text := txt;
     tokenized_text := None; vector := None |}.

Definition genesis : verse_dict Q := v "Genesis 1:1" "God created the heavens.".
Definition psalm : verse_dict Q := v "Psalm 23:1" "Yahweh is my shepherd;".
Definition john : verse_dict Q := v "John 11:35" "Jesus wept.".

Definition bible : list (book Q) :=
  [ {| data := [ {| verses := [genesis] |} ] |};
    {| data := [ {| verses := [psalm] |}; {| verses := [] |} ] |};
    {| data := [ {| verses := [john] |} ] |} ].

Definition bible_file : file (list (book Q)) :=
  {| file_path := "../../bible-files/english-web-bible.json"; contents := Some bible |}.

Definition glove_file : file (gmap string (list Q)) :=
  {| file_path := "../../dl-files/glove.6B.200d.txt"; contents := Some glove |}.

Definition build (_testing : bool) : result (Similarity Q) :=
  __init__ word_tokenize english_stopwords bible_file glove_file _testing.

(** The object built from the three verses, and the one built in the
    testing environment. *)
Definition index : Similarity Q := Eval vm_compute in
    match build false with
    | inr self => self
    | inl _ => {| verse_data := []; bible_verses := []; sim_matrix := [];
                  glove_words := None |}
    end.


(** The sort that stands for [np.argsort] on the samples. *)
Definition argsort : list Q → list nat := insertion_argsort.

(** Build, then ask for the verses similar to [reference]. *)
Definition query (_testing : bool) (reference : string) (total_values : Z)
  : result (list (verse_dict Q)) :=
  self ← build _testing;
  get_similar_values argsort self reference total_values.

End Sample.

(** ** Corpora at the edges: no verse at all, a first verse that already
    carries tokens, files that the constructor rejects *)

Module SampleEdge.

Definition empty_file : file (list (book Q)) :=
  {| file_path := "empty.json"; contents := Some [ {| data := [] |} ] |}.

Definition pretokenized : verse_dict Q :=
  {| verse := "Genesis 1:1"; verse_number := "1"; text := "God created.";
     tokenized_text := Some ["God"]; vector := None |}.

Definition pretokenized_file : file (list (book Q)) :=
  {| file_path := "tokens.json";
     contents := Some [ {| data := [ {| verses := [pretokenized; Sample.john] |} ] |} ] |}.

Definition wrong_ending : file (list (book Q)) :=
  {| file_path := "english-web-bible.txt"; contents := Some Sample.bible |}.


(** Two verses with the same reference. *)
Definition twice_file : file (list (book Q)) :=
  {| file_path := "twice.json";
     contents := Some [ {| data := [ {| verses := [Sample.genesis; Sample.psalm;
                                                   Sample.v "Psalm 23:1" "Jesus wept.";
                                                   Sample.john] |} ] |} ] |}.

Definition twice_index : Similarity Q := Eval vm_compute in
    match __init__ Sample.word_tokenize Sample.english_stopwords
            twice_file Sample.glove_file false with
    | inr self => self
    | inl _ => {| verse_data := []; bible_verses := []; sim_matrix := [];
                  glove_words := None |}
    end.

(** A verse none of whose tokens is in the table. *)
Definition luke : verse_dict Q := Sample.v "Luke 2:14" "the heavens and the earth".

Definition unknown_file : file (list (book Q)) :=
  {| file_path := "unknown.json";
     contents := Some [ {| data := [ {| verses := [Sample.genesis; luke] |} ] |} ] |}.

Definition unknown_index : Similarity Q := Eval vm_compute in
    match __init__ Sample.word_tokenize Sample.english_stopwords
            unknown_file Sample.glove_file false with
    | inr self => self
    | inl _ => {| verse_data := []; bible_verses := []; sim_matrix := [];
                  glove_words := None |}
    end.

End SampleEdge.

(** * Properties *)

(** ** Substitution of the divine name *)

Module PyStrFacts.
Import PyStr.

Lemma replace_cons old new c s :
  replace old new (String c s) =
  if String.prefix old (String c s)
  then new +:+ replace old new (drop (String.length old - 1) s)
  else String c (replace old new s).
Proof. simp replace. destruct (String.prefix old (String c s)); reflexivity. Qed.

(** Induction on strings along the jumps of [replace]. *)
Lemma string_jump_ind (P : string → Prop) :
  P "" →
  (∀ c s, (∀ n, P (drop n s)) → P (String c s)) →
  ∀ s, P s.
Proof.
  intros Hnil Hcons s.
  enough (Hall : ∀ n, P (drop n s)) by exact (Hall 0).
  induction s as [|c s IH]; intros n.
  - destruct n; exact Hnil.
  - destruct n as [|n]; simpl.
    + apply Hcons, IH.
    + apply IH.
Qed.

Lemma prefix_nil_l s : String.prefix "" s = true.
Proof. destruct s; reflexivity. Qed.

Lemma prefix_cons a p c s :
  String.prefix (String a p) (String c s) = true ↔ a = c ∧ String.prefix p s = true.
Proof.
  simpl. destruct (ascii_dec a c) as [->|Hne]; [tauto|].
  split; [discriminate | intros [? _]; contradiction].
Qed.

(** A prefix of the output that holds no [G] was a prefix of the input. *)
Lemma prefix_replace p s :
  has_char "G" p = false →
  String.prefix p (replace "Yahweh" "God" s) = true →
  String.prefix p s = true.
Proof.
  revert p. induction s as [|c s IH] using string_jump_ind; intros p HG Hp.
  - rewrite replace_equation_1 in Hp. exact Hp.
  - destruct p as [|a p]; [reflexivity|].
    simpl in HG. apply orb_false_iff in HG as [Ha HG].
    apply bool_decide_eq_false in Ha.
    rewrite replace_cons in Hp.
    destruct (String.prefix "Yahweh" (String c s)) eqn:E.
    + change ("God" +:+ ?t) with (String "G" (String "o" (String "d" t))) in Hp.
      apply prefix_cons in Hp as [-> _]. contradiction.
    + apply prefix_cons in Hp as [-> Hp]. apply prefix_cons. split; [reflexivity|].
      apply (IH 0), Hp. exact HG.
Qed.

(** No occurrence survives the substitution. *)
Lemma contains_replace s :
  contains "Yahweh" (replace "Yahweh" "God" s) = false.
Proof.
  induction s as [|c s IH] using string_jump_ind.
  - reflexivity.
  - destruct (String.prefix "Yahweh" (String c s)) eqn:E.
    + rewrite replace_cons, E.
      specialize (IH (String.length "Yahweh" - 1)).
      change ("God" +:+ ?t) with (String "G" (String "o" (String "d" t))).
      remember (replace "Yahweh" "God" (drop (String.length "Yahweh" - 1) s)) as t.
      change (contains "Yahweh" (String "G" (String "o" (String "d" t))))
        with (contains "Yahweh" t).
      exact IH.
    + destruct (String.prefix "Yahweh" (replace "Yahweh" "God" (String c s))) eqn:E'.
      * apply prefix_replace in E'; [congruence | reflexivity].
      * rewrite replace_cons, E in E' |- *.
        change (contains "Yahweh" (String c ?t))
          with (String.prefix "Yahweh" (String c t) || contains "Yahweh" t).
        rewrite E'. exact (IH 0).
Qed.

(** Without an occurrence the substitution changes nothing. *)
Lemma replace_absent s :
  contains "Yahweh" s = false → replace "Yahweh" "God" s = s.
Proof.
  induction s as [|c s IH]; intros Hc; [reflexivity|].
  change (contains "Yahweh" (String c s))
    with (String.prefix "Yahweh" (String c s) || contains "Yahweh" s) in Hc.
  apply orb_false_iff in Hc as [Hp Hc].
  rewrite replace_cons, Hp, IH by exact Hc. reflexivity.
Qed.

Lemma replace_idempotent s :
  replace "Yahweh" "God" (replace "Yahweh" "God" s) = replace "Yahweh" "God" s.
Proof. apply replace_absent, contains_replace. Qed.

Lemma has_char_upper ch s :
  is_upper ch = true → has_char ch s = true → has_upper s = true.
Proof.
  intros Hu. induction s as [|c s IH]; simpl; [discriminate|].
  intros [Hc|Hc]%orb_true_iff; apply orb_true_iff.
  - apply bool_decide_eq_true in Hc as ->. left; exact Hu.
  - right; exact (IH Hc).
Qed.

(** A token that holds the name holds a capital Y. *)
Lemma contains_has_Y s :
  contains "Yahweh" s = true → has_char "Y" s = true.
Proof.
  induction s as [|c s IH]; [discriminate|].
  change (contains "Yahweh" (String c s))
    with (String.prefix "Yahweh" (String c s) || contains "Yahweh" s).
  intros [Hp|Hc]%orb_true_iff; simpl; apply orb_true_iff.
  - apply prefix_cons in Hp as [<- _]. left. apply bool_decide_eq_true. reflexivity.
  - right; exact (IH Hc).
Qed.

(** After the substitution it holds a capital G. *)
Lemma replace_has_G s :
  contains "Yahweh" s = true → has_char "G" (replace "Yahweh" "God" s) = true.
Proof.
  induction s as [|c s IH] using string_jump_ind; [discriminate|].
  change (contains "Yahweh" (String c s))
    with (String.prefix "Yahweh" (String c s) || contains "Yahweh" s).
  rewrite replace_cons.
  destruct (String.prefix "Yahweh" (String c s)); simpl; intros Hc.
  - reflexivity.
  - apply orb_true_iff. right. exact (IH 0 Hc).
Qed.

End PyStrFacts.

Example replace_every_occurrence :
  PyStr.replace "Yahweh" "God" "xYahwehYahweh-Yahwe" = "xGodGod-Yahwe".
Proof. reflexivity. Qed.

(** ** Loops that may raise *)

Lemma bind_inr {A B} (m : result A) (k : A → result B) (b : B) :
  (m ≫= k) = inr b ↔ ∃ a, m = inr a ∧ k a = inr b.
Proof.
  destruct m as [e|a]; simpl; split.
  - discriminate.
  - intros (a & Ha & _); discriminate.
  - eauto.
  - intros (a' & [= <-] & Hk); exact Hk.
Qed.

Lemma for_each_inr {A B} (body : A → result B) l out :
  for_each body l = inr out → Forall2 (fun a b => body a = inr b) l out.
Proof.
  revert out; induction l as [|a l IH]; simpl; intros out Hout.
  - injection Hout as <-. constructor.
  - apply bind_inr in Hout as (b & Hb & Hout).
    apply bind_inr in Hout as (bs & Hbs & [= <-]).
    constructor; auto.
Qed.

Lemma for_each_total {A B} (body : A → result B) l :
  Forall (fun a => ∃ b, body a = inr b) l → ∃ out, for_each body l = inr out.
Proof.
  induction 1 as [|a l [b Hb] _ [out Hout]]; simpl.
  - eexists; reflexivity.
  - rewrite Hb; simpl. rewrite Hout; simpl. eexists; reflexivity.
Qed.

Lemma for_each_length {A B} (body : A → result B) l out :
  for_each body l = inr out → length out = length l.
Proof. intros Hout%for_each_inr. symmetry. eapply Forall2_length, Hout. Qed.

(** ** Building verse vectors *)

Section VectorFacts.
Context {F : Type} `{Float64 F}.
Implicit Types (glove : gmap string (list F)) (v o : verse_dict F).

Lemma length_zeros n : length (zeros (F:=F) n) = n.
Proof. apply length_replicate. Qed.

Lemma append_word_row glove vector word :
  append_word glove vector word = inr (vector ++ word_row glove word).
Proof.
  unfold append_word, get_glove_vector, word_row.
  destruct (glove !! word); reflexivity.
Qed.

Lemma append_words_rows glove vector words :
  append_words glove vector words
  = inr (vector ++ flat_map (word_row glove) words).
Proof.
  revert vector; induction words as [|w ws IH]; intros vector; simpl.
  - rewrite app_nil_r. reflexivity.
  - rewrite append_word_row. simpl. rewrite IH, <- app_assoc. reflexivity.
Qed.

Lemma length_rows glove words :
  (∀ w row, glove !! w = Some row → length row = 200) →
  length (flat_map (word_row glove) words) = 200 * length words.
Proof.
  intros Hdim. induction words as [|w ws IH]; simpl; [lia|].
  rewrite length_app, IH.
  enough (length (word_row glove w) = 200) by lia.
  unfold word_row. destruct (glove !! w) eqn:E; [eauto | apply length_zeros].
Qed.

Lemma glove_verse_tokens glove v tokens :
  tokenized_text v = Some tokens →
  glove_verse glove v
  = inr {| verse := verse v; verse_number := verse_number v; text := text v;
           tokenized_text := Some tokens; vector := Some (padded glove tokens) |}.
Proof.
  intros Ht. unfold glove_verse. rewrite Ht. simpl.
  rewrite append_words_rows. reflexivity.
Qed.

Lemma padded_dim glove tokens :
  (∀ w row, glove !! w = Some row → length row = 200) →
  padded glove tokens
  = flat_map (word_row glove) (take MAX_LEN tokens)
    ++ zeros (200 * (MAX_LEN - length tokens))
  ∧ length (padded glove tokens) = MAX_LEN * 200.
Proof.
  intros Hdim. unfold padded.
  pose proof (length_rows glove (take MAX_LEN tokens) Hdim) as Hlen.
  rewrite length_take in Hlen. rewrite Hlen.
  destruct (Nat.ltb_spec (200 * (MAX_LEN `min` length tokens)) (MAX_LEN * 200)) as [Hlt|Hge].
  - replace (MAX_LEN * 200 - 200 * (MAX_LEN `min` length tokens))
      with (200 * (MAX_LEN - length tokens)) by lia.
    split; [reflexivity|]. rewrite length_app, Hlen, length_zeros. lia.
  - replace (MAX_LEN - length tokens) with 0 by lia.
    rewrite Nat.mul_0_r. change (zeros 0) with (@nil F).
    rewrite app_nil_r. split; [reflexivity | lia].
Qed.

End VectorFacts.

(** ** Ranking *)

Lemma slice_to_length_le {A} (l : list A) k : length (slice_to l k) ≤ length l.
Proof. unfold slice_to. destruct (0 <=? k)%Z; rewrite length_take; lia. Qed.

Lemma slice_to_all {A} (l : list A) (k : Z) :
  (Z.of_nat (length l) ≤ k)%Z → slice_to l k = l.
Proof.
  intros Hk. unfold slice_to. destruct (Z.leb_spec 0 k); [|lia].
  apply take_ge. lia.
Qed.

Lemma slice_to_prefix {A} (l : list A) k : ∃ n, slice_to l k = take n l.
Proof. unfold slice_to. destruct (0 <=? k)%Z; eauto. Qed.

Section ArgsortFacts.
Context {F : Type} `{Float64 F}.
Implicit Types (a : list F) (i j : nat).

Lemma insert_index_perm a i sorted :
  Permutation (insert_index a i sorted) (i :: sorted).
Proof.
  induction sorted as [|j rest IH]; simpl; [reflexivity|].
  assert (Hskip : Permutation (j :: insert_index a i rest) (i :: j :: rest)).
  { rewrite IH. apply perm_swap. }
  destruct (a !! i), (a !! j); try exact Hskip.
  destruct (fltb _ _); [reflexivity | exact Hskip].
Qed.

Lemma insert_all_perm a todo sorted :
  Permutation (fold_left (fun sorted i => insert_index a i sorted) todo sorted)
              (sorted ++ todo).
Proof.
  revert sorted; induction todo as [|i todo IH]; intros sorted; simpl.
  - rewrite app_nil_r. reflexivity.
  - rewrite IH, insert_index_perm.
    change (i :: sorted) with ([i] ++ sorted).
    rewrite (Permutation_app_comm [i] sorted), <- app_assoc. reflexivity.
Qed.

(** Sorting by insertion returns every position exactly once. *)
Lemma insertion_argsort_permutes : argsort_permutes (insertion_argsort (F:=F)).
Proof. intros a. unfold insertion_argsort. rewrite insert_all_perm. reflexivity. Qed.

(** What follows for any [np.argsort] that returns every position
    exactly once. *)
Variable argsort : list F → list nat.
Hypothesis argsort_perm : argsort_permutes argsort.

Lemma argsort_length a : length (argsort a) = length a.
Proof using argsort_perm.
  rewrite (Permutation_length (argsort_perm a)). apply length_seq.
Qed.

Lemma argsort_range a i : i ∈ argsort a → i < length a.
Proof using argsort_perm.
  intros Hi. rewrite (argsort_perm a) in Hi.
  apply elem_of_seq in Hi. lia.
Qed.

Lemma argsort_NoDup a : NoDup (argsort a).
Proof using argsort_perm. rewrite (argsort_perm a). apply NoDup_seq. Qed.

End ArgsortFacts.

(** ** The similarity matrix *)

Section MatrixFacts.
Context {F : Type} `{Float64 F}.
Implicit Types (u v : list F) (X K : list (list F)).

Lemma zip_with_fmul_comm u v :
  (∀ x y : F, fmul x y = fmul y x) →
  zip_with fmul u v = zip_with fmul v u.
Proof.
  intros Hcomm. revert v; induction u as [|x u IH]; intros [|y v]; simpl; try reflexivity.
  rewrite (Hcomm x y), IH. reflexivity.
Qed.

Lemma dot_comm u v :
  (∀ x y : F, fmul x y = fmul y x) → dot u v = dot v u.
Proof. intros Hcomm. unfold dot. rewrite (zip_with_fmul_comm u v Hcomm). reflexivity. Qed.

Lemma cosine_similarity_inr X K :
  cosine_similarity X = inr K →
  K = map (fun u => map (fun v => dot u v) (map normalize X)) (map normalize X).
Proof.
  unfold cosine_similarity. destruct (check_array X); [|discriminate].
  intros [= <-]. reflexivity.
Qed.

Lemma cosine_similarity_lookup X K i j x :
  cosine_similarity X = inr K →
  (K !! i ≫= (.!! j)) = Some x ↔
  ∃ u v, X !! i = Some u ∧ X !! j = Some v ∧ x = dot (normalize u) (normalize v).
Proof.
  intros ->%cosine_similarity_inr.
  rewrite !list_lookup_fmap.
  destruct (X !! i) as [u|]; simpl.
  - rewrite !list_lookup_fmap. destruct (X !! j) as [v|]; simpl.
    + split; [intros [= <-]; eauto | intros (? & ? & [= <-] & [= <-] & ->); reflexivity].
    + split; [discriminate | intros (? & ? & _ & ? & _); discriminate].
  - split; [discriminate | intros (? & ? & ? & _); discriminate].
Qed.

Lemma cosine_similarity_shape X K :
  cosine_similarity X = inr K →
  length K = length X ∧ Forall (fun row => length row = length X) K.
Proof.
  intros ->%cosine_similarity_inr. rewrite !length_map. split; [reflexivity|].
  apply Forall_forall. intros row (u & <- & _)%list_elem_of_In%in_map_iff.
  rewrite !length_map. reflexivity.
Qed.

Lemma zeros2_lookup n i j x :
  (zeros2 (F:=F) n n !! i ≫= (.!! j)) = Some x → x = fzero.
Proof.
  unfold zeros2, zeros. destruct (replicate n (replicate n fzero) !! i) as [row|] eqn:Hrow;
    [|discriminate].
  apply lookup_replicate in Hrow as [-> _]. simpl.
  intros [-> _]%lookup_replicate. reflexivity.
Qed.

Lemma zeros2_shape n :
  length (zeros2 (F:=F) n n) = n ∧ Forall (fun row => length row = n) (zeros2 (F:=F) n n).
Proof.
  unfold zeros2, zeros. rewrite length_replicate. split; [reflexivity|].
  apply Forall_forall. intros row [-> _]%elem_of_replicate. apply length_replicate.
Qed.

End MatrixFacts.

(** ** The build phase *)

Section BuildFacts.
Context {F : Type} `{Float64 F}.
Variable word_tokenize : string → list string.
Variable english_stopwords : list string.
Implicit Types (st : Similarity F) (v o : verse_dict F).

(** The two ways [__init__] can return. *)
Lemma init_inr bible_file glove_file _testing st :
  __init__ word_tokenize english_stopwords bible_file glove_file _testing = inr st →
  ∃ bible_data, contents bible_file = Some bible_data ∧
    ((_testing = true ∧
      st = {| verse_data := flatten bible_data;
              bible_verses := flatten bible_data;
              sim_matrix := zeros2 (length (flatten bible_data))
                                   (length (flatten bible_data));
              glove_words := None |})
     ∨ (_testing = false ∧ ∃ glove out vectors K,
          contents glove_file = Some glove ∧
          convert_to_glove_vectors glove
            (tokenize_data word_tokenize english_stopwords (flatten bible_data))
            = inr out ∧
          vectors_of out = inr vectors ∧
          cosine_similarity vectors = inr K ∧
          st = {| verse_data := out; bible_verses := flatten bible_data;
                  sim_matrix := K; glove_words := Some glove |})).
Proof.
  unfold __init__. intros Hinit.
  apply bind_inr in Hinit as (bible_data & Hbible & Hinit).
  destruct (_check_file bible_file ".json"); [|discriminate].
  unfold load in Hbible. destruct (contents bible_file) as [d|]; [|discriminate].
  injection Hbible as ->.
  exists bible_data. split; [reflexivity|].
  destruct _testing.
  - left. injection Hinit as <-. split; reflexivity.
  - right. split; [reflexivity|].
    apply bind_inr in Hinit as (glove & Hglove & Hinit).
    destruct (_check_file glove_file ".txt"); [|discriminate].
    unfold load in Hglove. destruct (contents glove_file) as [g|]; [|discriminate].
    injection Hglove as ->.
    apply bind_inr in Hinit as (_ & _ & Hinit).
    apply bind_inr in Hinit as (out & Hout & Hinit).
    apply bind_inr in Hinit as (_ & _ & Hinit).
    apply bind_inr in Hinit as (vectors & Hvec & Hinit).
    apply bind_inr in Hinit as (K & HK & Hinit).
    injection Hinit as <-. exists glove, out, vectors, K. auto.
Qed.

Lemma tokenize_verse_fields v :
  let v' := tokenize_verse word_tokenize english_stopwords v in
  verse v' = verse v ∧ text v' = text v ∧ is_Some (tokenized_text v').
Proof. simpl. eauto. Qed.

Lemma glove_verse_fields glove v o :
  glove_verse glove v = inr o →
  verse o = verse v ∧ text o = text v
  ∧ tokenized_text o = tokenized_text v ∧ is_Some (vector o).
Proof.
  unfold glove_verse. intros Ho.
  apply bind_inr in Ho as (tokens & _ & Ho).
  apply bind_inr in Ho as (vector & _ & Ho).
  injection Ho as <-. simpl. eauto.
Qed.

(** Both passes keep the reference and the text of every record. *)
Lemma passes_keep glove verse_data out :
  convert_to_glove_vectors glove
    (tokenize_data word_tokenize english_stopwords verse_data) = inr out →
  Forall2 (fun v o => verse o = verse v ∧ text o = text v) verse_data out.
Proof.
  intros Hout%for_each_inr. unfold tokenize_data in Hout.
  apply Forall2_fmap_l in Hout.
  eapply Forall2_impl; [exact Hout|]. simpl.
  intros v o (Hv & Ht & _)%glove_verse_fields. simpl in Hv, Ht. auto.
Qed.

(** After a successful build the three attributes agree in size. *)
Lemma init_shape bible_file glove_file _testing st :
  __init__ word_tokenize english_stopwords bible_file glove_file _testing = inr st →
  length (bible_verses st) = length (verse_data st)
  ∧ length (sim_matrix st) = length (verse_data st)
  ∧ Forall (fun row => length row = length (verse_data st)) (sim_matrix st).
Proof.
  intros (bible_data & _ & [[_ ->] | (_ & glove & out & vectors & K & _ & Hout & Hvec & HK & ->)])%init_inr;
    simpl.
  - split; [reflexivity|]. apply zeros2_shape.
  - pose proof (Forall2_length _ _ _ (passes_keep _ _ _ Hout)) as Hlen.
    apply for_each_length in Hvec.
    apply cosine_similarity_shape in HK as [HK1 HK2]. rewrite Hvec in HK1, HK2.
    auto.
Qed.

(** After a successful build the display list and the working list name
    the same verses with the same text. *)
Lemma init_lists_agree bible_file glove_file _testing st :
  __init__ word_tokenize english_stopwords bible_file glove_file _testing = inr st →
  Forall2 (fun b v => verse b = verse v ∧ text b = text v)
          (bible_verses st) (verse_data st).
Proof.
  intros (bible_data & _ & [[_ ->] | (_ & glove & out & vectors & K & _ & Hout & _ & _ & ->)])%init_inr;
    simpl.
  - apply Forall_Forall2_diag, Forall_forall. auto.
  - eapply Forall2_impl; [exact (passes_keep _ _ _ Hout)|].
    simpl. intros v o [-> ->]. auto.
Qed.

End BuildFacts.

(** ** Queries *)

Section QueryFacts.
Context {F : Type} `{Float64 F}.
Variable argsort : list F → list nat.
Hypothesis argsort_perm : argsort_permutes argsort.
Implicit Types (st : Similarity F) (v : verse_dict F) (row : list F).

Lemma find_verse_None (verse_data : list (verse_dict F)) reference index :
  find_verse verse_data reference index = None
  ↔ Forall (fun v => verse v ≠ reference) verse_data.
Proof.
  revert index; induction verse_data as [|v vs IH]; intros index; simpl.
  - split; [constructor | reflexivity].
  - case_bool_decide as Hv.
    + split; [discriminate | intros Hall; inversion Hall; contradiction].
    + rewrite IH. split; [constructor; assumption | intros Hall; inversion Hall; assumption].
Qed.

Lemma find_verse_Some (verse_data : list (verse_dict F)) reference index p :
  find_verse verse_data reference index = Some p →
  index ≤ p ∧ ∃ v, verse_data !! (p - index) = Some v ∧ verse v = reference.
Proof.
  revert index; induction verse_data as [|v vs IH]; intros index; simpl; [discriminate|].
  case_bool_decide as Hv.
  - intros [= <-]. split; [lia|]. rewrite Nat.sub_diag. eauto.
  - intros [Hle (v' & Hv' & Href)]%IH. split; [lia|].
    exists v'. split; [|exact Href].
    replace (p - index) with (S (p - S index)) by lia. exact Hv'.
Qed.

Lemma find_verse_found (verse_data : list (verse_dict F)) reference :
  (∃ v, v ∈ verse_data ∧ verse v = reference) →
  ∃ p, find_verse verse_data reference 0 = Some p ∧ p < length verse_data.
Proof.
  intros (v & Hin & Href).
  destruct (find_verse verse_data reference 0) as [p|] eqn:Hfind.
  - exists p. split; [reflexivity|].
    apply find_verse_Some in Hfind as (_ & v' & Hv' & _).
    rewrite Nat.sub_0_r in Hv'. eapply lookup_lt_Some, Hv'.
  - apply find_verse_None in Hfind. rewrite Forall_forall in Hfind.
    destruct (Hfind v Hin Href).
Qed.

Lemma ranked_range row k i : i ∈ ranked argsort row k → S i < length row.
Proof using argsort_perm.
  unfold ranked. destruct (slice_to_prefix (reverse (argsort (drop 1 row))) k) as [n ->].
  intros (j & Hj & _)%elem_of_take.
  apply list_elem_of_lookup_2, elem_of_reverse, (argsort_range argsort argsort_perm) in Hj.
  rewrite length_drop in Hj. lia.
Qed.

Lemma ranked_NoDup row k : NoDup (ranked argsort row k).
Proof using argsort_perm.
  unfold ranked. destruct (slice_to_prefix (reverse (argsort (drop 1 row))) k) as [n ->].
  eapply sublist_NoDup; [|apply sublist_take].
  rewrite reverse_Permutation. apply (argsort_NoDup argsort argsort_perm).
Qed.

Lemma ranked_all row (k : Z) :
  (Z.of_nat (length row - 1) ≤ k)%Z → length (ranked argsort row k) = length row - 1.
Proof using argsort_perm.
  intros Hk. unfold ranked.
  rewrite slice_to_all;
    rewrite length_reverse, (argsort_length argsort argsort_perm), length_drop; lia.
Qed.

(** The query of a reference found at [p], on a state whose display
    list is as long as the row. *)
Lemma query_found st reference k p row :
  find_verse (verse_data st) reference 0 = Some p →
  sim_matrix st !! p = Some row →
  length row ≤ S (length (bible_verses st)) →
  ∃ res, get_similar_values argsort st reference k = inr res
         ∧ Forall2 (fun i r => bible_verses st !! i = Some r)
                   (ranked argsort row k) res.
Proof using argsort_perm.
  intros Hfind Hrow Hlen. unfold get_similar_values, getitem.
  rewrite Hfind, Hrow. simpl. fold (ranked argsort row k).
  assert (Hrange : Forall (fun i => i < length (bible_verses st)) (ranked argsort row k)).
  { apply Forall_forall. intros i Hi%ranked_range. lia. }
  induction Hrange as [|i idxs Hi _ (res & Hres & Hall)]; simpl.
  - exists []. split; [reflexivity | constructor].
  - destruct (lookup_lt_is_Some_2 _ _ Hi) as [r Hr]. rewrite Hr. simpl.
    rewrite Hres. simpl. exists (r :: res). split; [reflexivity|].
    constructor; assumption.
Qed.

(** The query of a reference that the search loop does not find. *)
Lemma query_unknown st reference k :
  find_verse (verse_data st) reference 0 = None →
  get_similar_values argsort st reference k = inr [].
Proof.
  intros Hfind. unfold get_similar_values. rewrite Hfind.
  change (drop 1 [sim_matrix st]) with (@nil (list (list F))).
  change (reverse (map (map argsort) [])) with (@nil (list (list nat))).
  unfold slice_to. destruct (0 <=? k)%Z; rewrite take_nil; reflexivity.
Qed.

End QueryFacts.

(** ** Order of the ranking

    For the insertion sort to meet the second half of the contract, [<]
    on the scalars is taken to be a strict weak order, as it is on
    float64 values without NaN. *)

Section RankingOrder.
Context {F : Type} `{Float64 F}.
Hypothesis fltb_irrefl : ∀ x : F, fltb x x = false.
Hypothesis fltb_trans : ∀ x y z : F, fltb x y = true → fltb y z = true → fltb x z = true.
Hypothesis fltb_cotrans : ∀ x y z : F, fltb x y = true → fltb x z = true ∨ fltb z y = true.
Implicit Types (a row : list F) (i j : nat).







End RankingOrder.

Section RankedScores.
Context {F : Type} `{Float64 F}.
Variable argsort : list F → list nat.
Hypothesis argsort_asc : argsort_ascending argsort.


End RankedScores.

(** ** Queries on a built index *)

Section BuiltQueries.
Context {F : Type} `{Float64 F}.
Variable word_tokenize : string → list string.
Variable english_stopwords : list string.
Variable argsort : list F → list nat.
Hypothesis argsort_perm : argsort_permutes argsort.
Implicit Types (st : Similarity F) (v r : verse_dict F).

(** A reference of the corpus is found, its row is read, and every
    ranked position indexes the display list. *)
Lemma built_query bible_file glove_file _testing st reference k :
  __init__ word_tokenize english_stopwords bible_file glove_file _testing = inr st →
  (∃ v, v ∈ verse_data st ∧ verse v = reference) →
  ∃ p row res,
    find_verse (verse_data st) reference 0 = Some p
    ∧ sim_matrix st !! p = Some row
    ∧ length row = length (verse_data st)
    ∧ get_similar_values argsort st reference k = inr res
    ∧ Forall2 (fun i r => bible_verses st !! i = Some r) (ranked argsort row k) res.
Proof using argsort_perm.
  intros (Hbv & Hsm & Hrows)%init_shape (p & Hfind & Hp)%find_verse_found.
  destruct (lookup_lt_is_Some_2 (sim_matrix st) p ltac:(lia)) as [row Hrow].
  assert (Hlen : length row = length (verse_data st)).
  { rewrite Forall_forall in Hrows. eapply Hrows, list_elem_of_lookup_2, Hrow. }
  destruct (query_found argsort argsort_perm st reference k p row Hfind Hrow ltac:(lia)) as (res & Hres & Hall).
  exists p, row, res. auto.
Qed.

(** C5. When [total_values] exceeds [n - 1], for [n] the number of verses,
    the query of a reference of the corpus returns a list of exactly
    [n - 1] records and raises nothing. *)
Theorem large_k_returns_all_but_one bible_file glove_file _testing st reference (k : Z) :
  __init__ word_tokenize english_stopwords bible_file glove_file _testing = inr st →
  (∃ v, v ∈ verse_data st ∧ verse v = reference) →
  (Z.of_nat (length (verse_data st)) - 1 < k)%Z →
  ∃ res, get_similar_values argsort st reference k = inr res
         ∧ length res = length (verse_data st) - 1.
Proof using argsort_perm.
  intros Hinit Hin Hk.
  destruct (built_query _ _ _ _ _ k Hinit Hin) as (p & row & res & _ & _ & Hlen & Hres & Hall).
  exists res. split; [exact Hres|].
  rewrite <- (Forall2_length _ _ _ Hall), (ranked_all argsort argsort_perm); lia.
Qed.

(** C10. For a reference of the corpus and any [total_values], the
    records returned are the display records at the ranked positions of
    the query row without its first column; every such position is
    below [n - 1], so the last display record is never reached; when
    references are unique in the display list, no returned record
    equals the last one. *)
Theorem last_verse_never_returned bible_file glove_file _testing st reference (k : Z) :
  __init__ word_tokenize english_stopwords bible_file glove_file _testing = inr st →
  (∃ v, v ∈ verse_data st ∧ verse v = reference) →
  ∃ p row res,
    find_verse (verse_data st) reference 0 = Some p
    ∧ sim_matrix st !! p = Some row
    ∧ get_similar_values argsort st reference k = inr res
    ∧ Forall2 (fun i r => bible_verses st !! i = Some r)
              (slice_to (reverse (argsort (drop 1 row))) k) res
    ∧ Forall (fun i => i < length (bible_verses st) - 1)
             (slice_to (reverse (argsort (drop 1 row))) k)
    ∧ (NoDup (map verse (bible_verses st)) →
       ∀ r, last (bible_verses st) = Some r → r ∉ res).
Proof using argsort_perm.
  intros Hinit Hin.
  destruct (built_query _ _ _ _ _ k Hinit Hin) as (p & row & res & Hfind & Hrow & Hlen & Hres & Hall).
  apply init_shape in Hinit as (Hbv & _ & _).
  assert (Hrange : Forall (fun i => i < length (bible_verses st) - 1) (ranked argsort row k)).
  { apply Forall_forall. intros i Hi%(ranked_range argsort argsort_perm). lia. }
  exists p, row, res. repeat split; try assumption.
  intros Hnodup r Hlast Hr.
  apply list_elem_of_lookup_1 in Hr as [q Hq].
  destruct (Forall2_lookup_r _ _ _ _ _ Hall Hq) as (i & Hi & Hbi).
  rewrite Forall_forall in Hrange.
  pose proof (Hrange i (list_elem_of_lookup_2 _ _ _ Hi)) as Hlt.
  rewrite last_lookup in Hlast.
  assert (Heq : i = Nat.pred (length (bible_verses st))); [|lia].
  eapply (NoDup_lookup _ _ _ (verse r) Hnodup).
  - change (map verse (bible_verses st)) with (verse <$> bible_verses st).
    rewrite list_lookup_fmap, Hbi. reflexivity.
  - change (map verse (bible_verses st)) with (verse <$> bible_verses st).
    rewrite list_lookup_fmap, Hlast. reflexivity.
Qed.

(** The defect behind C1 in general: on any corpus of two verses or more,
    asking for all verses similar to the first one returns a record that
    carries the reference of the first one. Position 0 of the shortened
    row is always ranked, and it is read as index 0 of the display
    list. *)
Lemma first_verse_among_its_results bible_file glove_file _testing st v0 (k : Z) :
  __init__ word_tokenize english_stopwords bible_file glove_file _testing = inr st →
  verse_data st !! 0 = Some v0 →
  2 ≤ length (verse_data st) →
  (Z.of_nat (length (verse_data st)) - 1 ≤ k)%Z →
  ∃ res r, get_similar_values argsort st (verse v0) k = inr res
           ∧ r ∈ res ∧ verse r = verse v0.
Proof using argsort_perm.
  intros Hinit Hv0 Hn Hk.
  assert (Hin : ∃ v, v ∈ verse_data st ∧ verse v = verse v0).
  { exists v0. split; [eapply list_elem_of_lookup_2, Hv0 | reflexivity]. }
  destruct (built_query _ _ _ _ _ k Hinit Hin)
    as (p & row & res & Hfind & Hrow & Hlen & Hres & Hall).
  exists res.
  assert (Hranked : 0 ∈ ranked argsort row k).
  { unfold ranked. rewrite slice_to_all
      by (rewrite length_reverse, (argsort_length argsort argsort_perm), length_drop; lia).
    apply elem_of_reverse. rewrite (argsort_perm (drop 1 row)).
    apply elem_of_seq. rewrite length_drop. lia. }
  apply list_elem_of_lookup_1 in Hranked as [q Hq].
  destruct (Forall2_lookup_l _ _ _ _ _ Hall Hq) as (r & Hr & Hb0).
  exists r. split; [exact Hres|]. split; [eapply list_elem_of_lookup_2, Hr|].
  pose proof (init_lists_agree _ _ _ _ _ _ Hinit) as Hagree.
  destruct (Forall2_lookup_lr _ _ _ _ _ _ Hagree Hb0 Hv0) as [Hverse _].
  exact Hverse.
Qed.

End BuiltQueries.

Lemma sample_argsort_permutes : argsort_permutes Sample.argsort.
Proof. exact insertion_argsort_permutes. Qed.

Lemma large_k_returns_all_but_one_witness :
  ∃ res, get_similar_values Sample.argsort Sample.index "Psalm 23:1" 5 = inr res
         ∧ length res = length (verse_data Sample.index) - 1.
Proof.
  apply (large_k_returns_all_but_one Sample.word_tokenize Sample.english_stopwords
           Sample.argsort sample_argsort_permutes
           Sample.bible_file Sample.glove_file false).
  - vm_compute. reflexivity.
  - eexists. split; [apply (list_elem_of_lookup_2 _ 1); reflexivity | reflexivity].
  - vm_compute. reflexivity.
Defined.

(** ** The query on the sample corpus *)

(** C1. On the three-verse corpus the ten verses most similar to
    "Genesis 1:1" are reported as "Psalm 23:1" and "Genesis 1:1": the
    queried verse is among its own results. The row that is sorted,
    [25/169; 168/169], has no two equal entries. *)
Theorem query_returns_queried_verse :
  Sample.build false = inr Sample.index
  ∧ get_similar_values Sample.argsort Sample.index "Genesis 1:1" 10
    = inr [Sample.psalm; Sample.genesis]
  ∧ verse Sample.genesis = "Genesis 1:1".
Proof. split; [|split]; vm_compute; reflexivity. Qed.

(** C3, as the specification states it, fails: "Exodus 2:3" is the
    reference of no verse of the sample corpus, and the query returns an
    ordinary, empty list instead of raising. *)
Lemma unknown_reference_not_an_error :
  Sample.build false = inr Sample.index
  ∧ Forall (fun v => verse v ≠ "Exodus 2:3") (verse_data Sample.index)
  ∧ get_similar_values Sample.argsort Sample.index "Exodus 2:3" 10 = inr []
  ∧ ¬ ∃ e, get_similar_values Sample.argsort Sample.index "Exodus 2:3" 10 = inl e.
Proof.
  assert (Hq : get_similar_values Sample.argsort Sample.index "Exodus 2:3" 10 = inr [])
    by (vm_compute; reflexivity).
  split; [|split; [|split]].
  - vm_compute. reflexivity.
  - repeat constructor; discriminate.
  - exact Hq.
  - intros [e He]. rewrite Hq in He. discriminate.
Qed.

(** C3, amended. A reference that matches the ['verse'] of no record makes
    the query return the empty list; nothing is raised. *)
Theorem unknown_reference_returns_empty {F : Type} `{Float64 F}
    (argsort : list F → list nat)
    (st : Similarity F) (reference : string) (k : Z) :
  Forall (fun v => verse v ≠ reference) (verse_data st) →
  get_similar_values argsort st reference k = inr [].
Proof. intros Hall. apply query_unknown, find_verse_None, Hall. Qed.

Lemma unknown_reference_returns_empty_witness :
  get_similar_values Sample.argsort Sample.index "Exodus 2:3" 10 = inr [].
Proof.
  apply unknown_reference_returns_empty.
  repeat constructor; discriminate.
Defined.


Section RankingClaim.
Context {F : Type} `{Float64 F}.
Variable word_tokenize : string → list string.
Variable english_stopwords : list string.
Variable argsort : list F → list nat.


End RankingClaim.

(** ** Laws of the rational instance *)





Lemma Q_fmul_comm (x y : Q) : fmul x y = fmul y x.
Proof.
  simpl. f_equal. unfold Qmult. f_equal; [apply Z.mul_comm | apply Pos.mul_comm].
Qed.

Lemma psalm_in_sample :
  ∃ v, v ∈ verse_data Sample.index ∧ verse v = "Psalm 23:1".
Proof.
  eexists. split; [apply (list_elem_of_lookup_2 _ 1); reflexivity | reflexivity].
Qed.



Lemma last_verse_never_returned_witness :
  ∃ p row res,
    find_verse (verse_data Sample.index) "Psalm 23:1" 0 = Some p
    ∧ sim_matrix Sample.index !! p = Some row
    ∧ get_similar_values Sample.argsort Sample.index "Psalm 23:1" 10 = inr res
    ∧ Forall2 (fun i r => bible_verses Sample.index !! i = Some r)
              (slice_to (reverse (Sample.argsort (drop 1 row))) 10) res
    ∧ Forall (fun i => i < length (bible_verses Sample.index) - 1)
             (slice_to (reverse (Sample.argsort (drop 1 row))) 10)
    ∧ (NoDup (map verse (bible_verses Sample.index)) →
       ∀ r, last (bible_verses Sample.index) = Some r → r ∉ res).
Proof.
  apply (last_verse_never_returned Sample.word_tokenize Sample.english_stopwords
           Sample.argsort sample_argsort_permutes
           Sample.bible_file Sample.glove_file false).
  - vm_compute. reflexivity.
  - exact psalm_in_sample.
Defined.

(** ** Vectors of fixed length *)

Section VectorClaims.
Context {F : Type} `{Float64 F}.
Implicit Types (glove : gmap string (list F)) (v o : verse_dict F).

Lemma convert_total glove (verse_data : list (verse_dict F)) :
  Forall (fun v => is_Some (tokenized_text v)) verse_data →
  ∃ out, convert_to_glove_vectors glove verse_data = inr out
         ∧ Forall2 (fun v o => ∃ tokens, tokenized_text v = Some tokens
                                         ∧ vector o = Some (padded glove tokens))
                   verse_data out.
Proof.
  intros Htok. unfold convert_to_glove_vectors.
  induction Htok as [|v vs [tokens Hv] _ (out & Hout & Hall)]; simpl.
  - exists []. split; [reflexivity | constructor].
  - rewrite (glove_verse_tokens glove v tokens Hv). simpl. rewrite Hout. simpl.
    eexists. split; [reflexivity|]. constructor; [|exact Hall].
    exists tokens. split; [exact Hv | reflexivity].
Qed.

(** C2. With a table of 200-dimensional rows, [convert_to_glove_vectors]
    returns, and the vector of every verse has length
    [MAX_LEN * 200 = 4800] whatever the number of its tokens: it is the
    rows (or zeros) of the first [MAX_LEN] tokens, in order, followed by
    200 zeros for every token short of [MAX_LEN]. *)
Theorem vectors_have_fixed_length glove (verse_data : list (verse_dict F)) :
  map_Forall (fun _ row => length row = 200) glove →
  Forall (fun v => is_Some (tokenized_text v)) verse_data →
  ∃ out, convert_to_glove_vectors glove verse_data = inr out
    ∧ Forall2 (fun v o => ∃ tokens vec,
                 tokenized_text v = Some tokens
                 ∧ vector o = Some vec
                 ∧ length vec = 4800
                 ∧ vec = flat_map (word_row glove) (take MAX_LEN tokens)
                         ++ zeros (200 * (MAX_LEN - length tokens)))
              verse_data out.
Proof.
  intros Hdim Htok.
  destruct (convert_total glove verse_data Htok) as (out & Hout & Hall).
  exists out. split; [exact Hout|].
  eapply Forall2_impl; [exact Hall|]. simpl.
  intros v o (tokens & Hv & Ho).
  destruct (padded_dim glove tokens Hdim) as [Hpad Hlen].
  exists tokens, (padded glove tokens). auto.
Qed.

Lemma padded_missing_word glove (word : string) tokens i :
  glove !! word = None → tokens !! i = Some word → i < MAX_LEN →
  ∃ rest, padded glove tokens
          = flat_map (word_row glove) (take i tokens) ++ zeros 200 ++ rest.
Proof.
  intros Hmiss Hword Hi.
  assert (Hlook : take MAX_LEN tokens !! i = Some word)
    by (rewrite lookup_take_lt by exact Hi; exact Hword).
  assert (Hrows : flat_map (word_row glove) (take MAX_LEN tokens)
                  = flat_map (word_row glove) (take i tokens) ++ zeros 200
                    ++ flat_map (word_row glove) (drop (S i) (take MAX_LEN tokens))).
  { rewrite <- (take_drop_middle _ _ _ Hlook) at 1.
    rewrite flat_map_app. cbn [flat_map]. rewrite take_take.
    replace (i `min` MAX_LEN) with i by lia.
    unfold word_row at 2. rewrite Hmiss. reflexivity. }
  unfold padded. cbv zeta. rewrite Hrows.
  destruct (_ <? _); [|eexists; reflexivity].
  rewrite <- !app_assoc. eexists. reflexivity.
Qed.

(** C6. For a word that the table does not hold, [get_glove_vector]
    raises [ValueError]; the loop of [convert_to_glove_vectors] catches
    it and appends 200 zeros. A verse that has the word among its first
    [MAX_LEN] tokens still gets its vector, with 200 zeros where the row
    of the word would stand, after the rows of the tokens before it
    (at positions [200 * i] to [200 * i + 199] for the token of index
    [i] when the rows of the table have 200 entries), and keeps its
    reference, text and tokens. The conversion of a whole corpus
    returns, every verse with the vector of its own tokens. *)
Theorem missing_word_gives_zeros glove (word : string) :
  glove !! word = None →
  get_glove_vector glove word = inl ValueError
  ∧ (∀ vector, append_word glove vector word = inr (vector ++ zeros 200))
  ∧ (∀ v tokens i,
       tokenized_text v = Some tokens → tokens !! i = Some word → i < MAX_LEN →
       ∃ o vec rest,
         glove_verse glove v = inr o
         ∧ verse o = verse v ∧ text o = text v ∧ tokenized_text o = Some tokens
         ∧ vector o = Some vec
         ∧ vec = flat_map (word_row glove) (take i tokens) ++ zeros 200 ++ rest
         ∧ (map_Forall (fun _ row => length row = 200) glove →
            length vec = 4800
            ∧ ∀ j, j < 200 → vec !! (200 * i + j) = Some fzero))
  ∧ (∀ verse_data : list (verse_dict F),
       Forall (fun v => is_Some (tokenized_text v)) verse_data →
       ∃ out, convert_to_glove_vectors glove verse_data = inr out
              ∧ Forall2 (fun v o =>
                           verse o = verse v ∧ text o = text v
                           ∧ tokenized_text o = tokenized_text v
                           ∧ ∃ tokens, tokenized_text v = Some tokens
                                       ∧ vector o = Some (padded glove tokens))
                        verse_data out).
Proof.
  intros Hmiss. split; [|split; [|split]].
  - unfold get_glove_vector. rewrite Hmiss. reflexivity.
  - intros vector. unfold append_word, get_glove_vector. rewrite Hmiss. reflexivity.
  - intros v tokens i Hv Hword Hi.
    rewrite (glove_verse_tokens glove v tokens Hv).
    destruct (padded_missing_word glove word tokens i Hmiss Hword Hi) as [rest Hrest].
    eexists _, (padded glove tokens), rest.
    split; [reflexivity|]. do 4 (split; [reflexivity|]). split; [exact Hrest|].
    intros Hdim. split; [apply (padded_dim glove tokens Hdim)|].
    intros j Hj. rewrite Hrest.
    assert (Hlen : length (flat_map (word_row glove) (take i tokens)) = 200 * i).
    { rewrite (length_rows glove _ Hdim), length_take.
      apply lookup_lt_Some in Hword. lia. }
    rewrite lookup_app_r by lia. rewrite Hlen.
    replace (200 * i + j - 200 * i) with j by lia.
    rewrite lookup_app_l by (rewrite length_zeros; exact Hj).
    apply lookup_replicate_2, Hj.
  - intros verse_data Htok. unfold convert_to_glove_vectors.
    induction Htok as [|v vs [tokens Hv] _ (out & Hout & Hall)]; simpl.
    + exists []. split; [reflexivity | constructor].
    + rewrite (glove_verse_tokens glove v tokens Hv). simpl. rewrite Hout. simpl.
      eexists. split; [reflexivity|]. constructor; [|exact Hall].
      simpl. rewrite Hv. repeat split; eauto.
Qed.

End VectorClaims.

Lemma vectors_have_fixed_length_witness :
  ∃ out,
    convert_to_glove_vectors Sample.glove
      (tokenize_data Sample.word_tokenize Sample.english_stopwords
         [Sample.genesis; Sample.psalm; Sample.john]) = inr out
    ∧ Forall2 (fun v o => ∃ tokens vec,
                 tokenized_text v = Some tokens
                 ∧ vector o = Some vec
                 ∧ length vec = 4800
                 ∧ vec = flat_map (word_row Sample.glove) (take MAX_LEN tokens)
                         ++ zeros (200 * (MAX_LEN - length tokens)))
              (tokenize_data Sample.word_tokenize Sample.english_stopwords
                 [Sample.genesis; Sample.psalm; Sample.john]) out.
Proof.
  apply vectors_have_fixed_length.
  - apply (bool_decide_unpack (map_Forall (fun _ row => length row = 200) Sample.glove)).
    vm_compute. reflexivity.
  - repeat constructor; eexists; reflexivity.
Defined.

Lemma missing_word_gives_zeros_witness :
  get_glove_vector Sample.glove "heavens" = inl ValueError
  ∧ (∀ vector, append_word Sample.glove vector "heavens" = inr (vector ++ zeros 200))
  ∧ (∀ (v : verse_dict Q) tokens i,
       tokenized_text v = Some tokens → tokens !! i = Some "heavens" → i < MAX_LEN →
       ∃ o vec rest,
         glove_verse Sample.glove v = inr o
         ∧ verse o = verse v ∧ text o = text v ∧ tokenized_text o = Some tokens
         ∧ vector o = Some vec
         ∧ vec = flat_map (word_row Sample.glove) (take i tokens) ++ zeros 200 ++ rest
         ∧ (map_Forall (fun _ row => length row = 200) Sample.glove →
            length vec = 4800
            ∧ ∀ j, j < 200 → vec !! (200 * i + j) = Some fzero))
  ∧ (∀ verse_data : list (verse_dict Q),
       Forall (fun v => is_Some (tokenized_text v)) verse_data →
       ∃ out, convert_to_glove_vectors Sample.glove verse_data = inr out
              ∧ Forall2 (fun v o =>
                           verse o = verse v ∧ text o = text v
                           ∧ tokenized_text o = tokenized_text v
                           ∧ ∃ tokens, tokenized_text v = Some tokens
                                       ∧ vector o = Some (padded Sample.glove tokens))
                        verse_data out).
Proof.
  apply missing_word_gives_zeros. vm_compute. reflexivity.
Defined.

(** ** The two spellings of the divine name *)

Section NameClaim.
Context {F : Type} `{Float64 F}.
Variable english_stopwords : list string.
Hypothesis stopwords_lowercase :
  Forall (fun w => PyStr.has_upper w = false) english_stopwords.
Implicit Types (val : string) (rest : list string).

Lemma capital_not_stopword val :
  PyStr.has_upper val = true → val ∉ stopwords_list english_stopwords.
Proof using stopwords_lowercase.
  intros Hup Hin. unfold stopwords_list in Hin.
  apply elem_of_list_to_set in Hin.
  rewrite Forall_forall in stopwords_lowercase.
  rewrite (stopwords_lowercase val Hin) in Hup. discriminate.
Qed.

Lemma final_text_name val rest :
  PyStr.contains "Yahweh" val = true →
  final_text english_stopwords (val :: rest)
  = PyStr.replace "Yahweh" "God" val :: final_text english_stopwords rest.
Proof using stopwords_lowercase.
  intros Hc. simpl. rewrite Hc.
  rewrite bool_decide_eq_false_2; [reflexivity|].
  apply capital_not_stopword.
  eapply (PyStrFacts.has_char_upper "Y"); [reflexivity|].
  apply PyStrFacts.contains_has_Y, Hc.
Qed.

Lemma final_text_replaced val rest :
  PyStr.contains "Yahweh" val = true →
  final_text english_stopwords (PyStr.replace "Yahweh" "God" val :: rest)
  = PyStr.replace "Yahweh" "God" val :: final_text english_stopwords rest.
Proof using stopwords_lowercase.
  intros Hc. simpl. rewrite PyStrFacts.contains_replace.
  rewrite bool_decide_eq_false_2; [reflexivity|].
  apply capital_not_stopword.
  eapply (PyStrFacts.has_char_upper "G"); [reflexivity|].
  apply PyStrFacts.replace_has_G, Hc.
Qed.

Lemma final_text_app (l1 l2 : list string) :
  final_text english_stopwords (l1 ++ l2)
  = final_text english_stopwords l1 ++ final_text english_stopwords l2.
Proof using Type.
  induction l1 as [|w l1 IH]; simpl; [reflexivity|].
  case_bool_decide; [exact IH|]. rewrite IH. reflexivity.
Qed.

(** C7. With stopwords free of capitals, as the English list of NLTK
    is, a token that holds "Yahweh" and the token obtained from it by
    writing "God" for "Yahweh" are kept as the same token by
    [tokenize_data], wherever they stand in a verse, and two verses
    that differ only by this get the same vector. *)
Theorem name_variants_vectorized_alike val :
  PyStr.contains "Yahweh" val = true →
  final_text english_stopwords [val] = [PyStr.replace "Yahweh" "God" val]
  ∧ final_text english_stopwords [PyStr.replace "Yahweh" "God" val]
    = [PyStr.replace "Yahweh" "God" val]
  ∧ (∀ before after,
       final_text english_stopwords (before ++ val :: after)
       = final_text english_stopwords
           (before ++ PyStr.replace "Yahweh" "God" val :: after))
  ∧ (∀ (glove : gmap string (list F)) (v v' : verse_dict F) before after,
       tokenized_text v
         = Some (final_text english_stopwords (before ++ val :: after)) →
       tokenized_text v'
         = Some (final_text english_stopwords
                   (before ++ PyStr.replace "Yahweh" "God" val :: after)) →
       ∃ o o' vec, glove_verse glove v = inr o ∧ glove_verse glove v' = inr o'
                   ∧ vector o = Some vec ∧ vector o' = Some vec).
Proof using stopwords_lowercase.
  intros Hc.
  assert (Hsame : ∀ before after,
            final_text english_stopwords (before ++ val :: after)
            = final_text english_stopwords
                (before ++ PyStr.replace "Yahweh" "God" val :: after)).
  { intros before after.
    rewrite !final_text_app, final_text_name, final_text_replaced by exact Hc.
    reflexivity. }
  split; [apply (final_text_name val [] Hc)|].
  split; [apply (final_text_replaced val [] Hc)|].
  split; [exact Hsame|].
  intros glove v v' before after Hv Hv'.
  rewrite <- Hsame in Hv'.
  rewrite (glove_verse_tokens glove v _ Hv), (glove_verse_tokens glove v' _ Hv').
  eexists _, _, _. repeat split; reflexivity.
Qed.

End NameClaim.

Lemma name_variants_vectorized_alike_witness :
  final_text Sample.english_stopwords ["Yahweh"] = [PyStr.replace "Yahweh" "God" "Yahweh"]
  ∧ final_text Sample.english_stopwords [PyStr.replace "Yahweh" "God" "Yahweh"]
    = [PyStr.replace "Yahweh" "God" "Yahweh"]
  ∧ (∀ before after,
       final_text Sample.english_stopwords (before ++ "Yahweh" :: after)
       = final_text Sample.english_stopwords
           (before ++ PyStr.replace "Yahweh" "God" "Yahweh" :: after))
  ∧ (∀ (glove : gmap string (list Q)) (v v' : verse_dict Q) before after,
       tokenized_text v
         = Some (final_text Sample.english_stopwords (before ++ "Yahweh" :: after)) →
       tokenized_text v'
         = Some (final_text Sample.english_stopwords
                   (before ++ PyStr.replace "Yahweh" "God" "Yahweh" :: after)) →
       ∃ o o' vec, glove_verse glove v = inr o ∧ glove_verse glove v' = inr o'
                   ∧ vector o = Some vec ∧ vector o' = Some vec).
Proof.
  apply name_variants_vectorized_alike.
  - repeat constructor.
  - reflexivity.
Defined.

(** ** Symmetry of the matrix, agreement of the two lists *)

Section BuildClaims.
Context {F : Type} `{Float64 F}.
Variable word_tokenize : string → list string.
Variable english_stopwords : list string.
Implicit Types (st : Similarity F) (v b : verse_dict F).

(** C8. When the product of scalars commutes, as it does on float64,
    the matrix held after a successful build is symmetric: for all [i]
    and [j] below the number of verses both entries exist and
    [sim_matrix[i][j]] equals [sim_matrix[j][i]]. *)
Theorem similarity_matrix_symmetric bible_file glove_file _testing st i j :
  (∀ x y : F, fmul x y = fmul y x) →
  __init__ word_tokenize english_stopwords bible_file glove_file _testing = inr st →
  i < length (verse_data st) → j < length (verse_data st) →
  ∃ x, (sim_matrix st !! i ≫= (.!! j)) = Some x
       ∧ (sim_matrix st !! j ≫= (.!! i)) = Some x.
Proof.
  intros Hcomm Hinit Hi Hj.
  destruct (init_shape _ _ _ _ _ _ Hinit) as (_ & Hsm & Hrows).
  rewrite Forall_forall in Hrows.
  destruct (lookup_lt_is_Some_2 (sim_matrix st) i ltac:(lia)) as [ri Hri].
  destruct (lookup_lt_is_Some_2 (sim_matrix st) j ltac:(lia)) as [rj Hrj].
  pose proof (Hrows ri (list_elem_of_lookup_2 _ _ _ Hri)) as Hleni.
  pose proof (Hrows rj (list_elem_of_lookup_2 _ _ _ Hrj)) as Hlenj.
  destruct (lookup_lt_is_Some_2 ri j ltac:(lia)) as [x Hx].
  destruct (lookup_lt_is_Some_2 rj i ltac:(lia)) as [y Hy].
  assert (Hij : (sim_matrix st !! i ≫= (.!! j)) = Some x) by (rewrite Hri; exact Hx).
  assert (Hji : (sim_matrix st !! j ≫= (.!! i)) = Some y) by (rewrite Hrj; exact Hy).
  exists x. split; [exact Hij|]. rewrite Hji. f_equal.
  apply init_inr in Hinit
    as (bible_data & _ & [[_ ->] | (_ & glove & out & vectors & K & _ & _ & _ & HK & ->)]);
    simpl in Hij, Hji.
  - apply zeros2_lookup in Hij, Hji. congruence.
  - apply (cosine_similarity_lookup _ _ _ _ _ HK) in Hij as (u & w & Hu & Hw & ->).
    apply (cosine_similarity_lookup _ _ _ _ _ HK) in Hji as (w' & u' & Hw' & Hu' & ->).
    rewrite Hu in Hu'. rewrite Hw in Hw'. injection Hu' as <-. injection Hw' as <-.
    apply dot_comm, Hcomm.
Qed.

(** C9. After a successful build the display list and the working list
    have the same length and, index by index, the same reference and
    the same text; [tokenize_data] fills ['tokenized_text'] and keeps
    reference and text of every record. *)
Theorem display_and_working_lists_agree bible_file glove_file _testing st :
  __init__ word_tokenize english_stopwords bible_file glove_file _testing = inr st →
  length (bible_verses st) = length (verse_data st)
  ∧ Forall2 (fun b v => verse b = verse v ∧ text b = text v)
            (bible_verses st) (verse_data st)
  ∧ ∀ verse_data : list (verse_dict F),
      Forall2 (fun v v' => verse v' = verse v ∧ text v' = text v
                           ∧ is_Some (tokenized_text v'))
              verse_data
              (tokenize_data word_tokenize english_stopwords verse_data).
Proof.
  intros Hinit. split; [eapply init_shape, Hinit|]. split.
  - eapply init_lists_agree, Hinit.
  - intros verse_data. unfold tokenize_data.
    apply Forall2_fmap_r, Forall_Forall2_diag, Forall_forall.
    intros v _. apply tokenize_verse_fields.
Qed.

End BuildClaims.

Lemma similarity_matrix_symmetric_witness :
  ∃ x, (sim_matrix Sample.index !! 0 ≫= (.!! 2)) = Some x
       ∧ (sim_matrix Sample.index !! 2 ≫= (.!! 0)) = Some x.
Proof.
  apply (similarity_matrix_symmetric Sample.word_tokenize Sample.english_stopwords
           Sample.bible_file Sample.glove_file false).
  - exact Q_fmul_comm.
  - vm_compute. reflexivity.
  - vm_compute. lia.
  - vm_compute. lia.
Defined.

Lemma display_and_working_lists_agree_witness :
  length (bible_verses Sample.index) = length (verse_data Sample.index)
  ∧ Forall2 (fun b v => verse b = verse v ∧ text b = text v)
            (bible_verses Sample.index) (verse_data Sample.index)
  ∧ ∀ verse_data : list (verse_dict Q),
      Forall2 (fun v v' => verse v' = verse v ∧ text v' = text v
                           ∧ is_Some (tokenized_text v'))
              verse_data
              (tokenize_data Sample.word_tokenize Sample.english_stopwords verse_data).
Proof.
  apply (display_and_working_lists_agree Sample.word_tokenize Sample.english_stopwords
           Sample.bible_file Sample.glove_file false).
  vm_compute. reflexivity.
Defined.

(** * Further properties of the code *)

(** ** What the constructor accepts and what it builds *)

Section BuildOutcomes.
Context {F : Type} `{Float64 F}.
Variable word_tokenize : string → list string.
Variable english_stopwords : list string.
Implicit Types (glove : gmap string (list F)) (b v : verse_dict F).

Lemma convert_tokenize glove (verse_data : list (verse_dict F)) :
  convert_to_glove_vectors glove
    (tokenize_data word_tokenize english_stopwords verse_data)
  = inr (map (built_verse word_tokenize english_stopwords glove) verse_data).
Proof.
  unfold convert_to_glove_vectors, tokenize_data.
  induction verse_data as [|b bs IH]; simpl; [reflexivity|].
  rewrite (glove_verse_tokens glove (tokenize_verse word_tokenize english_stopwords b)
             (tokens_of word_tokenize english_stopwords b) eq_refl).
  simpl. rewrite IH. reflexivity.
Qed.

Lemma vectors_of_built glove (verse_data : list (verse_dict F)) :
  vectors_of (map (built_verse word_tokenize english_stopwords glove) verse_data)
  = inr (map (fun b => padded glove (tokens_of word_tokenize english_stopwords b))
             verse_data).
Proof.
  unfold vectors_of. induction verse_data as [|b bs IH]; simpl; [reflexivity|].
  rewrite IH. reflexivity.
Qed.

Lemma keys_tokenized v b :
  is_Some (tokenized_text v) → tokenized_text b = None → keys v ≠ keys b.
Proof.
  intros [t Hv] Hb Heq.
  assert (Hin : "tokenized_text" ∈ keys v).
  { unfold keys. rewrite Hv. apply elem_of_union_l, elem_of_union_r, elem_of_singleton.
    reflexivity. }
  rewrite Heq in Hin. unfold keys in Hin. rewrite Hb in Hin.
  destruct (vector b); set_unfold in Hin; intuition discriminate.
Qed.

Lemma check_file_true {A} (f : file A) ending :
  _check_file f ending = true →
  PyStr.endswith (file_path f) ending = true ∧ ∃ d, contents f = Some d.
Proof.
  unfold _check_file. intros [Hend Hsome]%andb_true_iff.
  apply bool_decide_eq_true in Hsome as [d Hd]. eauto.
Qed.

Lemma check_file_load {A} (f : file A) ending d :
  PyStr.endswith (file_path f) ending = true → contents f = Some d →
  (if _check_file f ending then load f else _throw_value_error) = inr d.
Proof.
  intros Hend Hd. unfold _check_file, load. rewrite Hend, Hd. reflexivity.
Qed.

Lemma padded_finite glove tokens :
  fisfinite fzero = true →
  map_Forall (fun _ row => forallb fisfinite row = true) glove →
  forallb fisfinite (padded glove tokens) = true.
Proof.
  intros Hzero Hglove.
  assert (Hzeros : ∀ n, forallb fisfinite (zeros n) = true).
  { induction n as [|n IH]; simpl; [reflexivity|]. rewrite Hzero. exact IH. }
  assert (Hrows : ∀ words, forallb fisfinite (flat_map (word_row glove) words) = true).
  { induction words as [|w ws IH]; simpl; [reflexivity|].
    rewrite forallb_app, IH, andb_true_r. unfold word_row.
    destruct (glove !! w) as [row|] eqn:Hw; [exact (Hglove w row Hw) | apply Hzeros]. }
  unfold padded. simpl. destruct (_ <? _); [|apply Hrows].
  rewrite forallb_app, Hrows, Hzeros. reflexivity.
Qed.

Lemma check_array_uniform (X : list (list F)) n :
  X ≠ [] → n ≠ 0 →
  Forall (fun u => length u = n ∧ forallb fisfinite u = true) X →
  check_array X = true.
Proof.
  intros Hne Hn Hall. destruct X as [|u X]; [contradiction|].
  unfold check_array.
  pose proof (Forall_inv Hall) as [Hu _]. rewrite Hu.
  apply andb_true_iff. split; [apply andb_true_iff; split|].
  - apply negb_true_iff, Nat.eqb_neq, Hn.
  - apply forallb_forall. intros v Hv%list_elem_of_In.
    rewrite Forall_forall in Hall. destruct (Hall v Hv) as [-> _]. apply Nat.eqb_refl.
  - apply forallb_forall. intros v Hv%list_elem_of_In.
    rewrite Forall_forall in Hall. destruct (Hall v Hv) as [_ Hfin]. exact Hfin.
Qed.

(** X1. Sufficient conditions for the constructor to return, and what it
    returns then: both paths have the right ending and name a file, the
    corpus has a first verse without the key ['tokenized_text'], the rows
    of the table have 200 finite entries. The display list is the
    flattened corpus as loaded, the working list is the same records with
    tokens and vector added, and the matrix is the one of inner products
    of the normalised vectors. *)
Theorem build_succeeds bible_file glove_file bible_data glove b0 rest :
  PyStr.endswith (file_path bible_file) ".json" = true →
  contents bible_file = Some bible_data →
  PyStr.endswith (file_path glove_file) ".txt" = true →
  contents glove_file = Some glove →
  flatten bible_data = b0 :: rest →
  tokenized_text b0 = None →
  map_Forall (fun _ row => length row = 200) glove →
  map_Forall (fun _ row => forallb fisfinite row = true) glove →
  fisfinite fzero = true →
  __init__ word_tokenize english_stopwords bible_file glove_file false
  = inr {| verse_data :=
             map (built_verse word_tokenize english_stopwords glove)
                 (flatten bible_data);
           bible_verses := flatten bible_data;
           sim_matrix :=
             gram (map (fun b => padded glove
                                   (tokens_of word_tokenize english_stopwords b))
                       (flatten bible_data));
           glove_words := Some glove |}.
Proof.
  intros Hjson Hbible Htxt Hglove Hflat Htok Hdim Hfin Hzero.
  unfold __init__.
  rewrite (check_file_load _ _ _ Hjson Hbible),
          (check_file_load _ _ _ Htxt Hglove). simpl.
  assert (Hfirst : assert_keys_differ
            (tokenize_data word_tokenize english_stopwords (flatten bible_data))
            (flatten bible_data) = inr tt).
  { rewrite Hflat. unfold assert_keys_differ. simpl.
    rewrite bool_decide_eq_true_2; [reflexivity|].
    apply keys_tokenized; [simpl; eauto | exact Htok]. }
  rewrite Hfirst. simpl. rewrite convert_tokenize. simpl.
  assert (Hsecond : assert_keys_differ
            (map (built_verse word_tokenize english_stopwords glove)
                 (flatten bible_data))
            (flatten bible_data) = inr tt).
  { rewrite Hflat. unfold assert_keys_differ. simpl.
    rewrite bool_decide_eq_true_2; [reflexivity|].
    apply keys_tokenized; [simpl; eauto | exact Htok]. }
  rewrite Hsecond. simpl. rewrite vectors_of_built. simpl.
  unfold cosine_similarity. rewrite (check_array_uniform _ 4800); [reflexivity| | |].
  - rewrite Hflat. discriminate.
  - discriminate.
  - apply Forall_forall. intros u (b & <- & _)%list_elem_of_In%in_map_iff. split.
    + apply (padded_dim glove _ Hdim).
    + apply padded_finite; assumption.
Qed.

(** X2. A corpus without a verse cannot be built outside the testing
    environment: with both files accepted, the constructor raises
    [IndexError] at its first assertion. *)
Theorem empty_corpus_raises bible_file glove_file bible_data glove :
  PyStr.endswith (file_path bible_file) ".json" = true →
  contents bible_file = Some bible_data →
  PyStr.endswith (file_path glove_file) ".txt" = true →
  contents glove_file = Some glove →
  flatten bible_data = [] →
  __init__ word_tokenize english_stopwords bible_file glove_file false
  = inl IndexError.
Proof.
  intros Hjson Hbible Htxt Hglove Hflat. unfold __init__.
  rewrite (check_file_load _ _ _ Hjson Hbible),
          (check_file_load _ _ _ Htxt Hglove). simpl.
  rewrite Hflat. reflexivity.
Qed.

(** X3. A corpus whose first verse already has the key ['tokenized_text']
    makes the first assertion of the constructor fail. *)
Theorem pretokenized_corpus_raises bible_file glove_file bible_data glove b0 rest :
  PyStr.endswith (file_path bible_file) ".json" = true →
  contents bible_file = Some bible_data →
  PyStr.endswith (file_path glove_file) ".txt" = true →
  contents glove_file = Some glove →
  flatten bible_data = b0 :: rest →
  is_Some (tokenized_text b0) →
  __init__ word_tokenize english_stopwords bible_file glove_file false
  = inl AssertionError.
Proof.
  intros Hjson Hbible Htxt Hglove Hflat [t Htok]. unfold __init__.
  rewrite (check_file_load _ _ _ Hjson Hbible),
          (check_file_load _ _ _ Htxt Hglove). simpl.
  rewrite Hflat. unfold assert_keys_differ. simpl.
  rewrite bool_decide_eq_false_2; [reflexivity|].
  intros Hne. apply Hne. unfold keys. simpl. rewrite Htok. reflexivity.
Qed.

Lemma check_file_false {A} (f : file A) (ending : string) :
  (∀ p, file_path f ≠ p +:+ ending) ∨ contents f = None →
  _check_file f ending = false.
Proof.
  intros Hbad. apply not_true_iff_false. intros [Hend [d Hd]]%check_file_true.
  destruct Hbad as [Hshape|Hnone]; [|congruence].
  unfold PyStr.endswith in Hend. apply andb_true_iff in Hend as [_ Hdrop].
  apply String.eqb_eq in Hdrop.
  assert (Hsplit : ∀ n (t : string), ∃ q, t = q +:+ PyStr.drop n t).
  { induction n as [|n IH]; intros t.
    - exists "". destruct t; reflexivity.
    - destruct t as [|c t]; [exists ""; reflexivity|].
      destruct (IH t) as [q Hq]. exists (String c q).
      change (String c t = String c (q +:+ PyStr.drop n t)). f_equal. exact Hq. }
  destruct (Hsplit (String.length (file_path f) - String.length ending) (file_path f))
    as [q Hq].
  rewrite Hdrop in Hq. exact (Hshape q Hq).
Qed.

(** X4. The corpus path is checked first: one that does not end in [.json],
    or that names no file, makes the constructor raise [ValueError]
    whatever the table path and the [_testing] flag are. *)
Theorem corpus_path_rejected bible_file glove_file _testing :
  (∀ p, file_path bible_file ≠ p +:+ ".json") ∨ contents bible_file = None →
  __init__ word_tokenize english_stopwords bible_file glove_file _testing
  = inl ValueError.
Proof.
  intros Hbad%check_file_false. unfold __init__. rewrite Hbad. reflexivity.
Qed.


(** X7. The three nested loops of the constructor neither drop nor invent a
    verse: a record is in the flattened list exactly when it is a verse
    of some chapter of some book. *)
Theorem flatten_holds_every_verse (bible_data : list (book F)) (v : verse_dict F) :
  v ∈ flatten bible_data
  ↔ ∃ (bk : book F) (ch : chapter F),
      bk ∈ bible_data ∧ ch ∈ data bk ∧ v ∈ verses ch.
Proof.
  unfold flatten. rewrite list_elem_of_In, in_flat_map. split.
  - intros (bk & Hb & (ch & Hc & Hv)%in_flat_map).
    exists bk, ch. rewrite !list_elem_of_In. auto.
  - intros (bk & ch & Hb & Hc & Hv). rewrite !list_elem_of_In in *.
    exists bk. split; [exact Hb|]. apply in_flat_map. eauto.
Qed.

End BuildOutcomes.

(** ** More on queries *)

Lemma lookups_unique {A} (l : list A) idxs res res' :
  Forall2 (fun i r => l !! i = Some r) idxs res →
  Forall2 (fun i r => l !! i = Some r) idxs res' →
  res = res'.
Proof.
  intros Hres. revert res'. induction Hres as [|i r idxs res Hr _ IH]; intros res' Hres'.
  - inversion Hres'. reflexivity.
  - inversion Hres' as [|? r' ? res'' Hr' Hrest]; subst.
    rewrite Hr in Hr'. injection Hr' as <-. f_equal. apply IH, Hrest.
Qed.

Lemma lookups_NoDup {A} (l : list A) idxs res :
  Forall2 (fun i r => l !! i = Some r) idxs res →
  NoDup idxs → NoDup l → NoDup res.
Proof.
  intros Hres Hidxs Hl. induction Hres as [|i r idxs res Hr Hrest IH].
  - constructor.
  - apply NoDup_cons in Hidxs as [Hi Hidxs]. constructor; [|apply IH, Hidxs].
    intros [q Hq]%list_elem_of_lookup_1.
    destruct (Forall2_lookup_r _ _ _ _ _ Hrest Hq) as (i' & Hi' & Hr').
    rewrite (NoDup_lookup l i i' r Hl Hr Hr') in Hi.
    apply Hi. eapply list_elem_of_lookup_2, Hi'.
Qed.

Section QueryExtras.
Context {F : Type} `{Float64 F}.
Variable word_tokenize : string → list string.
Variable english_stopwords : list string.
Variable argsort : list F → list nat.
Hypothesis argsort_perm : argsort_permutes argsort.
Implicit Types (st : Similarity F) (v r : verse_dict F).

Lemma init_display_list bible_file glove_file _testing st :
  __init__ word_tokenize english_stopwords bible_file glove_file _testing = inr st →
  ∃ bible_data, contents bible_file = Some bible_data
                ∧ bible_verses st = flatten bible_data.
Proof.
  intros (bible_data & Hb & [[_ ->] | (_ & glove & out & vectors & K & _ & _ & _ & _ & ->)])%init_inr;
    exists bible_data; auto.
Qed.

Lemma found_in_corpus st reference p :
  find_verse (verse_data st) reference 0 = Some p →
  ∃ v, v ∈ verse_data st ∧ verse v = reference.
Proof.
  intros (_ & v & Hv & Href)%find_verse_Some. exists v. split; [|exact Href].
  eapply list_elem_of_lookup_2, Hv.
Qed.

(** X15. On a built object a query never raises, whatever the reference and
    whatever [total_values], and every record it returns is a record of
    the corpus file as loaded: no tokens, no vector added. *)
Theorem query_returns_loaded_records bible_file glove_file _testing st reference (k : Z) :
  __init__ word_tokenize english_stopwords bible_file glove_file _testing = inr st →
  ∃ bible_data res,
    contents bible_file = Some bible_data
    ∧ get_similar_values argsort st reference k = inr res
    ∧ Forall (fun r => r ∈ flatten bible_data) res.
Proof using argsort_perm.
  intros Hinit.
  destruct (init_display_list _ _ _ _ Hinit) as (bible_data & Hb & Hbv).
  exists bible_data.
  destruct (find_verse (verse_data st) reference 0) as [p|] eqn:Hfind.
  - destruct (built_query _ _ argsort argsort_perm _ _ _ _ _ k Hinit (found_in_corpus _ _ _ Hfind))
      as (p' & row & res & _ & _ & _ & Hres & Hall).
    exists res. split; [exact Hb|]. split; [exact Hres|].
    apply Forall_forall. intros r [q Hq]%list_elem_of_lookup_1.
    destruct (Forall2_lookup_r _ _ _ _ _ Hall Hq) as (i & _ & Hi).
    rewrite <- Hbv. eapply list_elem_of_lookup_2, Hi.
  - exists []. split; [exact Hb|]. split; [apply query_unknown, Hfind | constructor].
Qed.

(** X16. The number of records returned for a reference of the corpus: with
    [n] verses, [min(k, n - 1)] for [k ≥ 0], and [n - 1 - |k|], or none
    when that is negative, for [k < 0]. *)
Theorem query_result_length bible_file glove_file _testing st reference (k : Z) :
  __init__ word_tokenize english_stopwords bible_file glove_file _testing = inr st →
  (∃ v, v ∈ verse_data st ∧ verse v = reference) →
  ∃ res, get_similar_values argsort st reference k = inr res
         ∧ length res
           = if (0 <=? k)%Z then Z.to_nat k `min` (length (verse_data st) - 1)
             else length (verse_data st) - 1 - Z.to_nat (- k).
Proof using argsort_perm.
  intros Hinit Hin.
  destruct (built_query _ _ argsort argsort_perm _ _ _ _ _ k Hinit Hin)
    as (p & row & res & _ & _ & Hlen & Hres & Hall).
  exists res. split; [exact Hres|].
  rewrite <- (Forall2_length _ _ _ Hall). unfold ranked, slice_to.
  destruct (Z.leb_spec 0 k);
    rewrite length_take, length_reverse, (argsort_length argsort argsort_perm), length_drop; lia.
Qed.

(** X17. Asking for more never changes what comes first: for [0 ≤ k ≤ k'] the
    result for [k] is the first [k] records of the result for [k']. *)
Theorem query_results_nested bible_file glove_file _testing st reference (k k' : Z) :
  __init__ word_tokenize english_stopwords bible_file glove_file _testing = inr st →
  (0 ≤ k ≤ k')%Z →
  ∃ res res', get_similar_values argsort st reference k = inr res
              ∧ get_similar_values argsort st reference k' = inr res'
              ∧ res = take (Z.to_nat k) res'.
Proof using argsort_perm.
  intros Hinit [Hk Hk'].
  destruct (find_verse (verse_data st) reference 0) as [p|] eqn:Hfind.
  - pose proof (found_in_corpus _ _ _ Hfind) as Hin.
    destruct (built_query _ _ argsort argsort_perm _ _ _ _ _ k Hinit Hin)
      as (p1 & row & res & Hfind1 & Hrow & _ & Hres & Hall).
    destruct (built_query _ _ argsort argsort_perm _ _ _ _ _ k' Hinit Hin)
      as (p2 & row' & res' & Hfind2 & Hrow' & _ & Hres' & Hall').
    rewrite Hfind1 in Hfind2. injection Hfind2 as <-.
    rewrite Hrow in Hrow'. injection Hrow' as <-.
    exists res, res'. split; [exact Hres|]. split; [exact Hres'|].
    eapply lookups_unique; [exact Hall|].
    replace (ranked argsort row k) with (take (Z.to_nat k) (ranked argsort row k')).
    + apply Forall2_take, Hall'.
    + unfold ranked, slice_to.
      destruct (Z.leb_spec 0 k); [|lia]. destruct (Z.leb_spec 0 k'); [|lia].
      rewrite take_take. f_equal. lia.
  - exists [], []. rewrite !(query_unknown argsort _ _ _ Hfind), take_nil. auto.
Qed.

(** X18. With unique references in the display list, no verse is returned
    twice. *)
Theorem query_results_distinct bible_file glove_file _testing st reference (k : Z) :
  __init__ word_tokenize english_stopwords bible_file glove_file _testing = inr st →
  NoDup (verse <$> bible_verses st) →
  ∃ res, get_similar_values argsort st reference k = inr res ∧ NoDup (verse <$> res).
Proof using argsort_perm.
  intros Hinit Hnodup.
  destruct (find_verse (verse_data st) reference 0) as [p|] eqn:Hfind.
  - destruct (built_query _ _ argsort argsort_perm _ _ _ _ _ k Hinit (found_in_corpus _ _ _ Hfind))
      as (p' & row & res & _ & _ & _ & Hres & Hall).
    exists res. split; [exact Hres|].
    eapply (lookups_NoDup (verse <$> bible_verses st) (ranked argsort row k));
      [|apply (ranked_NoDup argsort argsort_perm)|exact Hnodup].
    apply Forall2_fmap_r. eapply Forall2_impl; [exact Hall|].
    simpl. intros i r Hi. rewrite list_lookup_fmap, Hi. reflexivity.
  - exists []. split; [apply query_unknown, Hfind | constructor].
Qed.

Lemma find_verse_first (verse_data : list (verse_dict F)) reference start p v :
  verse_data !! p = Some v → verse v = reference →
  (∀ q w, q < p → verse_data !! q = Some w → verse w ≠ reference) →
  find_verse verse_data reference start = Some (start + p).
Proof.
  revert p start. induction verse_data as [|x l IH]; intros p start Hp Href Hfirst;
    [discriminate|]. simpl.
  destruct p as [|p]; simpl in Hp.
  - injection Hp as ->. rewrite bool_decide_eq_true_2 by exact Href.
    f_equal. lia.
  - rewrite bool_decide_eq_false_2 by (apply (Hfirst 0 x); [lia | reflexivity]).
    rewrite (IH p (S start) Hp Href); [f_equal; lia|].
    intros q w Hq Hw. apply (Hfirst (S q) w); [lia | exact Hw].
Qed.

(** X19. When several verses carry the same reference, the query reads the
    matrix row of the first of them: the search loop stops at its first
    match. *)
Theorem query_reads_first_match bible_file glove_file _testing st v p (k : Z) :
  __init__ word_tokenize english_stopwords bible_file glove_file _testing = inr st →
  verse_data st !! p = Some v →
  (∀ q w, q < p → verse_data st !! q = Some w → verse w ≠ verse v) →
  ∃ row res,
    sim_matrix st !! p = Some row
    ∧ get_similar_values argsort st (verse v) k = inr res
    ∧ Forall2 (fun i r => bible_verses st !! i = Some r)
              (slice_to (reverse (argsort (drop 1 row))) k) res.
Proof using argsort_perm.
  intros Hinit Hp Hfirst.
  assert (Hin : ∃ w, w ∈ verse_data st ∧ verse w = verse v).
  { exists v. split; [eapply list_elem_of_lookup_2, Hp | reflexivity]. }
  destruct (built_query _ _ argsort argsort_perm _ _ _ _ _ k Hinit Hin)
    as (p' & row & res & Hfind & Hrow & _ & Hres & Hall).
  rewrite (find_verse_first _ _ 0 p v Hp eq_refl Hfirst) in Hfind.
  injection Hfind as <-.
  exists row, res. auto.
Qed.

End QueryExtras.

(** ** More on text preprocessing *)

Module TextExtras.
Import PyStr.

Lemma length_append (p e : string) :
  String.length (p +:+ e) = String.length p + String.length e.
Proof. induction p as [|c p IH]; simpl; [reflexivity | rewrite IH; reflexivity]. Qed.

Lemma drop_append (p e : string) : drop (String.length p) (p +:+ e) = e.
Proof. induction p as [|c p IH]; simpl; [destruct e; reflexivity | exact IH]. Qed.

Lemma split_at_drop n (s : string) : ∃ p, s = p +:+ drop n s.
Proof.
  revert s. induction n as [|n IH]; intros s.
  - exists "". destruct s; reflexivity.
  - destruct s as [|c s]; [exists ""; reflexivity|].
    destruct (IH s) as [p Hp]. exists (String c p).
    change (String c s = String c (p +:+ drop n s)). f_equal. exact Hp.
Qed.

Lemma length_drop n (s : string) : String.length (drop n s) = String.length s - n.
Proof.
  revert s. induction n as [|n IH]; intros [|c s]; simpl; try reflexivity; try lia.
  apply IH.
Qed.

Lemma prefix_length (p s : string) :
  String.prefix p s = true → String.length p ≤ String.length s.
Proof.
  revert s. induction p as [|a p IH]; intros [|c s]; simpl; try lia; try discriminate.
  destruct (ascii_dec a c); [|discriminate]. intros Hp%IH. lia.
Qed.

(** X6. [str.endswith] holds exactly when the string is some prefix followed
    by the ending; hence [_check_file] accepts exactly the paths of that
    shape that name a file. *)
Theorem check_file_accepts {A} (f : file A) (ending : string) :
  _check_file f ending = true
  ↔ (∃ p, file_path f = p +:+ ending) ∧ is_Some (contents f).
Proof.
  unfold _check_file, endswith.
  rewrite andb_true_iff, andb_true_iff, bool_decide_eq_true, Nat.leb_le, String.eqb_eq.
  split.
  - intros [[Hlen Hdrop] Hsome]. split; [|exact Hsome].
    destruct (split_at_drop (String.length (file_path f) - String.length ending)
                (file_path f)) as [p Hp].
    exists p. rewrite Hdrop in Hp. exact Hp.
  - intros [[p Hp] Hsome]. split; [|exact Hsome].
    rewrite Hp, length_append. split; [lia|].
    replace (String.length p + String.length ending - String.length ending)
      with (String.length p) by lia.
    apply drop_append.
Qed.

(** X8. After the punctuation filter of [tokenize_data] a character occurs
    in the text exactly when it occurred before and is not one of the
    punctuation characters: none of them is left, nothing else is lost. *)
Theorem punctuation_filter_keeps_the_rest (s : string) (ch : ascii) :
  has_char ch (remove_chars exclude s)
  = has_char ch s && negb (bool_decide (ch ∈ exclude)).
Proof.
  induction s as [|c s IH]; [reflexivity|].
  cbn [remove_chars]. destruct (bool_decide (c ∈ exclude)) eqn:Hc;
    cbn [has_char]; rewrite IH.
  - destruct (bool_decide (c = ch)) eqn:Hcc; [|reflexivity].
    apply bool_decide_eq_true in Hcc as <-. rewrite Hc.
    rewrite andb_false_r. reflexivity.
  - destruct (bool_decide (c = ch)) eqn:Hcc; [|reflexivity].
    apply bool_decide_eq_true in Hcc as <-. rewrite Hc.
    destruct (has_char c s); reflexivity.
Qed.

(** X9. The substitution of the name settles in one pass: its result holds no
    "Yahweh", substituting again changes nothing, it leaves a token alone
    exactly when the token holds no "Yahweh", and it never lengthens a
    token. *)
Theorem name_substitution_settles (s : string) :
  contains "Yahweh" (replace "Yahweh" "God" s) = false
  ∧ replace "Yahweh" "God" (replace "Yahweh" "God" s) = replace "Yahweh" "God" s
  ∧ (replace "Yahweh" "God" s = s ↔ contains "Yahweh" s = false)
  ∧ String.length (replace "Yahweh" "God" s) ≤ String.length s.
Proof.
  split; [apply PyStrFacts.contains_replace|].
  split; [apply PyStrFacts.replace_idempotent|].
  split.
  - split; [|apply PyStrFacts.replace_absent].
    intros Heq. rewrite <- Heq. apply PyStrFacts.contains_replace.
  - induction s as [|c s IH] using PyStrFacts.string_jump_ind;
      [rewrite replace_equation_1; simpl; lia|].
    rewrite PyStrFacts.replace_cons.
    destruct (String.prefix "Yahweh" (String c s)) eqn:Hp.
    + apply prefix_length in Hp.
      change (String.length "Yahweh") with 6 in *.
      change (String.length (String c s)) with (S (String.length s)) in *.
      rewrite length_append.
      specialize (IH (6 - 1)). rewrite length_drop in IH.
      change (String.length "God") with 3. lia.
    + specialize (IH 0). change (drop 0 s) with s in IH.
      change (String.length (String c ?t)) with (S (String.length t)). lia.
Qed.

End TextExtras.

Section TokenExtras.
Context {F : Type} `{Float64 F}.
Variable word_tokenize : string → list string.
Variable english_stopwords : list string.

Lemma final_text_without_name (tokens : list string) :
  Forall (fun t => PyStr.contains "Yahweh" t = false)
         (final_text english_stopwords tokens).
Proof.
  induction tokens as [|val rest IH]; simpl; [constructor|].
  case_bool_decide; [exact IH|]. constructor; [|exact IH].
  destruct (PyStr.contains "Yahweh" val) eqn:Hc;
    [apply PyStrFacts.contains_replace | exact Hc].
Qed.

(** X10. Whatever the tokenizer and the stopwords, after [tokenize_data] every
    record has the same reference and text as before and carries tokens
    none of which holds "Yahweh"; the list keeps its length. *)
Theorem tokenize_data_removes_name (verse_data : list (verse_dict F)) :
  Forall2 (fun v v' =>
             verse v' = verse v ∧ text v' = text v ∧ vector v' = vector v
             ∧ ∃ tokens, tokenized_text v' = Some tokens
                         ∧ Forall (fun t => PyStr.contains "Yahweh" t = false) tokens)
          verse_data (tokenize_data word_tokenize english_stopwords verse_data).
Proof.
  unfold tokenize_data. apply Forall2_fmap_r, Forall_Forall2_diag, Forall_forall.
  intros v _. simpl. repeat split.
  eexists. split; [reflexivity | apply final_text_without_name].
Qed.

End TokenExtras.

Section StopwordExtras.
Variable english_stopwords : list string.

(** X11. On tokens that do not hold "Yahweh" the loop of [tokenize_data] only
    removes the stopwords and keeps the other tokens in order. *)
Theorem stopwords_only_removed (tokens : list string) :
  Forall (fun t => PyStr.contains "Yahweh" t = false) tokens →
  final_text english_stopwords tokens
  = filter (fun t => t ∉ stopwords_list english_stopwords) tokens.
Proof.
  intros Hall. induction Hall as [|val rest Hval _ IH]; simpl; [reflexivity|].
  rewrite filter_cons. case_bool_decide as Hstop.
  - rewrite decide_False by tauto. exact IH.
  - rewrite decide_True by exact Hstop. rewrite Hval, IH. reflexivity.
Qed.

End StopwordExtras.

(** ** More on vectors *)

Section VectorExtras.
Context {F : Type} `{Float64 F}.
Variable word_tokenize : string → list string.
Variable english_stopwords : list string.
Implicit Types (glove : gmap string (list F)) (v o : verse_dict F).

(** X12. The padding step never cuts: the vector of a verse starts with the
    rows of its first [MAX_LEN] tokens and has the length of these rows
    or 4800, whichever is greater. With a table of rows longer than 200
    it can exceed 4800. *)
Theorem vector_never_truncated glove v tokens :
  tokenized_text v = Some tokens →
  ∃ o vec,
    glove_verse glove v = inr o ∧ vector o = Some vec
    ∧ length vec
      = 4800 `max` length (flat_map (word_row glove) (take MAX_LEN tokens))
    ∧ take (length (flat_map (word_row glove) (take MAX_LEN tokens))) vec
      = flat_map (word_row glove) (take MAX_LEN tokens).
Proof.
  intros Hv. rewrite (glove_verse_tokens glove v tokens Hv).
  eexists _, _. split; [reflexivity|]. split; [reflexivity|].
  unfold padded. cbv zeta.
  change (MAX_LEN * 200) with 4800.
  destruct (Nat.ltb_spec (length (flat_map (word_row glove) (take MAX_LEN tokens))) 4800).
  - rewrite length_app, length_zeros, take_app_length. split; [lia | reflexivity].
  - rewrite firstn_all. split; [lia | reflexivity].
Qed.

Lemma unknown_rows glove (words : list string) :
  Forall (fun w => glove !! w = None) words →
  flat_map (word_row glove) words = zeros (200 * length words).
Proof.
  induction 1 as [|w ws Hw _ IH]; [reflexivity|].
  cbn [flat_map]. rewrite IH. unfold word_row. rewrite Hw. unfold zeros.
  rewrite <- replicate_add. f_equal. simpl. lia.
Qed.

Lemma padded_unknown glove tokens :
  Forall (fun w => glove !! w = None) (take MAX_LEN tokens) →
  padded glove tokens = zeros 4800.
Proof.
  intros Hunknown. unfold padded. cbv zeta.
  rewrite (unknown_rows glove _ Hunknown), length_zeros.
  assert (Hlen : length (take MAX_LEN tokens) ≤ 24) by (rewrite length_take; unfold MAX_LEN; lia).
  change (MAX_LEN * 200) with 4800.
  destruct (Nat.ltb_spec (200 * length (take MAX_LEN tokens)) 4800).
  - unfold zeros. rewrite <- replicate_add. f_equal. lia.
  - f_equal. lia.
Qed.

(** X13. A verse none of whose first [MAX_LEN] tokens is in the table, or
    that has no token at all, gets the zero vector of length 4800. *)
Theorem unknown_verse_gets_zero_vector glove v tokens :
  tokenized_text v = Some tokens →
  Forall (fun w => glove !! w = None) (take MAX_LEN tokens) →
  ∃ o, glove_verse glove v = inr o ∧ vector o = Some (zeros 4800).
Proof.
  intros Hv Hunknown. rewrite (glove_verse_tokens glove v tokens Hv).
  eexists. split; [reflexivity|]. simpl. f_equal. apply padded_unknown, Hunknown.
Qed.

Lemma dot_zeros n :
  fmul fzero fzero = fzero → fadd fzero fzero = fzero →
  dot (zeros n) (zeros n) = fzero.
Proof.
  intros Hmul Hadd. unfold dot, zeros.
  induction n as [|n IH]; simpl; [reflexivity|].
  rewrite Hmul, Hadd. exact IH.
Qed.

Lemma normalize_zeros n :
  fmul fzero fzero = fzero → fadd fzero fzero = fzero →
  fsqrt fzero = fzero → feqb fzero fzero = true → fdiv fzero fone = fzero →
  normalize (zeros n) = zeros n.
Proof.
  intros Hmul Hadd Hsqrt Heq Hdiv. unfold normalize, row_norm.
  rewrite (dot_zeros n Hmul Hadd), Hsqrt, Heq. unfold zeros.
  induction n as [|n IH]; simpl; [reflexivity|]. rewrite Hdiv, IH. reflexivity.
Qed.

(** X14. The similarity of an all-unknown verse to itself is zero, not one:
    its vector is zero, its norm is replaced by one, and the inner
    product of the zero vector with itself is zero. Only facts about the
    scalar zero are used. *)
Theorem unknown_verse_self_similarity bible_file glove_file st i v tokens glove :
  fmul fzero fzero = fzero → fadd fzero fzero = fzero →
  fsqrt fzero = fzero → feqb fzero fzero = true → fdiv fzero fone = fzero →
  __init__ word_tokenize english_stopwords bible_file glove_file false = inr st →
  glove_words st = Some glove →
  verse_data st !! i = Some v →
  tokenized_text v = Some tokens →
  Forall (fun w => glove !! w = None) (take MAX_LEN tokens) →
  vector v = Some (zeros 4800)
  ∧ (sim_matrix st !! i ≫= (.!! i)) = Some fzero.
Proof.
  intros Hmul Hadd Hsqrt Heq Hdiv Hinit Hglove Hv Htok Hunknown.
  apply init_inr in Hinit
    as (bible_data & _ & [[Hfalse _] | (_ & g & out & vectors & K & _ & Hout & Hvec & HK & ->)]);
    [discriminate|].
  simpl in Hglove, Hv |- *. injection Hglove as ->.
  rewrite convert_tokenize in Hout. injection Hout as <-.
  rewrite vectors_of_built in Hvec. injection Hvec as <-.
  change (map ?f ?l) with (f <$> l) in Hv. rewrite list_lookup_fmap in Hv.
  destruct (flatten bible_data !! i) as [b|] eqn:Hb; [|discriminate].
  injection Hv as <-. simpl in Htok. injection Htok as <-.
  pose proof (padded_unknown glove _ Hunknown) as Hpad.
  split; [simpl; f_equal; exact Hpad|].
  apply (cosine_similarity_lookup _ _ _ _ _ HK).
  exists (zeros 4800), (zeros 4800).
  assert (Hrow : map (fun b => padded glove (tokens_of word_tokenize english_stopwords b))
                     (flatten bible_data) !! i = Some (zeros 4800)).
  { change (map ?f ?l) with (f <$> l). rewrite list_lookup_fmap, Hb. simpl.
    f_equal. exact Hpad. }
  split; [exact Hrow|]. split; [exact Hrow|].
  rewrite (normalize_zeros 4800 Hmul Hadd Hsqrt Heq Hdiv).
  symmetry. apply dot_zeros; assumption.
Qed.

End VectorExtras.

(** ** The further properties on the sample corpora *)

Lemma build_succeeds_witness :
  __init__ Sample.word_tokenize Sample.english_stopwords
    Sample.bible_file Sample.glove_file false
  = inr {| verse_data :=
             map (built_verse Sample.word_tokenize Sample.english_stopwords Sample.glove)
                 (flatten Sample.bible);
           bible_verses := flatten Sample.bible;
           sim_matrix :=
             gram (map (fun b => padded Sample.glove
                                   (tokens_of Sample.word_tokenize
                                      Sample.english_stopwords b))
                       (flatten Sample.bible));
           glove_words := Some Sample.glove |}.
Proof.
  apply (build_succeeds Sample.word_tokenize Sample.english_stopwords
           Sample.bible_file Sample.glove_file Sample.bible Sample.glove
           Sample.genesis [Sample.psalm; Sample.john]).
  - reflexivity.
  - reflexivity.
  - reflexivity.
  - reflexivity.
  - reflexivity.
  - reflexivity.
  - apply (bool_decide_unpack (map_Forall (fun _ row => length row = 200) Sample.glove)).
    vm_compute. reflexivity.
  - apply (bool_decide_unpack
             (map_Forall (fun _ row => forallb fisfinite row = true) Sample.glove)).
    vm_compute. reflexivity.
  - reflexivity.
Defined.

Lemma empty_corpus_raises_witness :
  __init__ Sample.word_tokenize Sample.english_stopwords
    SampleEdge.empty_file Sample.glove_file false
  = inl IndexError.
Proof.
  apply (empty_corpus_raises Sample.word_tokenize Sample.english_stopwords
           SampleEdge.empty_file Sample.glove_file [ {| data := [] |} ] Sample.glove);
    reflexivity.
Defined.

Lemma pretokenized_corpus_raises_witness :
  __init__ Sample.word_tokenize Sample.english_stopwords
    SampleEdge.pretokenized_file Sample.glove_file false
  = inl AssertionError.
Proof.
  apply (pretokenized_corpus_raises Sample.word_tokenize Sample.english_stopwords
           SampleEdge.pretokenized_file Sample.glove_file
           [ {| data := [ {| verses := [SampleEdge.pretokenized; Sample.john] |} ] |} ]
           Sample.glove SampleEdge.pretokenized [Sample.john]);
    try reflexivity.
  eexists. reflexivity.
Defined.

Lemma corpus_path_rejected_witness :
  __init__ Sample.word_tokenize Sample.english_stopwords
    SampleEdge.wrong_ending Sample.glove_file true
  = inl ValueError.
Proof.
  apply corpus_path_rejected. left. intros p Hp.
  assert (Hend : PyStr.endswith (p +:+ ".json") ".json" = true).
  { unfold PyStr.endswith. rewrite TextExtras.length_append.
    replace (String.length p + String.length ".json" - String.length ".json")
      with (String.length p) by lia.
    rewrite TextExtras.drop_append. apply andb_true_iff. split; [apply Nat.leb_le; lia|].
    reflexivity. }
  rewrite <- Hp in Hend. vm_compute in Hend. discriminate.
Defined.


Lemma query_returns_loaded_records_witness :
  ∃ bible_data res,
    contents Sample.bible_file = Some bible_data
    ∧ get_similar_values Sample.argsort Sample.index "John 11:35" (-1) = inr res
    ∧ Forall (fun r => r ∈ flatten bible_data) res.
Proof.
  apply (query_returns_loaded_records Sample.word_tokenize Sample.english_stopwords
           Sample.argsort sample_argsort_permutes
           Sample.bible_file Sample.glove_file false).
  vm_compute. reflexivity.
Defined.

Lemma query_result_length_witness :
  ∃ res, get_similar_values Sample.argsort Sample.index "Psalm 23:1" (-1) = inr res
         ∧ length res
           = if (0 <=? -1)%Z then Z.to_nat (-1) `min` (length (verse_data Sample.index) - 1)
             else length (verse_data Sample.index) - 1 - Z.to_nat (- -1).
Proof.
  apply (query_result_length Sample.word_tokenize Sample.english_stopwords
           Sample.argsort sample_argsort_permutes
           Sample.bible_file Sample.glove_file false).
  - vm_compute. reflexivity.
  - exact psalm_in_sample.
Defined.

Lemma query_results_nested_witness :
  ∃ res res', get_similar_values Sample.argsort Sample.index "Psalm 23:1" 1 = inr res
              ∧ get_similar_values Sample.argsort Sample.index "Psalm 23:1" 10 = inr res'
              ∧ res = take (Z.to_nat 1) res'.
Proof.
  apply (query_results_nested Sample.word_tokenize Sample.english_stopwords
           Sample.argsort sample_argsort_permutes
           Sample.bible_file Sample.glove_file false).
  - vm_compute. reflexivity.
  - lia.
Defined.

Lemma query_results_distinct_witness :
  ∃ res, get_similar_values Sample.argsort Sample.index "Psalm 23:1" 10 = inr res
         ∧ NoDup (verse <$> res).
Proof.
  apply (query_results_distinct Sample.word_tokenize Sample.english_stopwords
           Sample.argsort sample_argsort_permutes
           Sample.bible_file Sample.glove_file false).
  - vm_compute. reflexivity.
  - apply (bool_decide_unpack (NoDup (verse <$> bible_verses Sample.index))).
    vm_compute. reflexivity.
Defined.

Lemma query_reads_first_match_witness :
  ∃ row res,
    sim_matrix SampleEdge.twice_index !! 1 = Some row
    ∧ get_similar_values Sample.argsort SampleEdge.twice_index "Psalm 23:1" 10 = inr res
    ∧ Forall2 (fun i r => bible_verses SampleEdge.twice_index !! i = Some r)
              (slice_to (reverse (Sample.argsort (drop 1 row))) 10) res.
Proof.
  apply (query_reads_first_match Sample.word_tokenize Sample.english_stopwords
           Sample.argsort sample_argsort_permutes
           SampleEdge.twice_file Sample.glove_file false SampleEdge.twice_index
           (built_verse Sample.word_tokenize Sample.english_stopwords Sample.glove
              Sample.psalm) 1 10).
  - vm_compute. reflexivity.
  - vm_compute. reflexivity.
  - intros q w Hq Hw. destruct q as [|q]; [|lia].
    vm_compute in Hw. injection Hw as <-. discriminate.
Defined.

Lemma stopwords_only_removed_witness :
  final_text Sample.english_stopwords ["the"; "heavens"; "and"; "the"; "earth"]
  = filter (fun t => t ∉ stopwords_list Sample.english_stopwords)
           ["the"; "heavens"; "and"; "the"; "earth"].
Proof.
  apply stopwords_only_removed. repeat constructor.
Defined.

Lemma vector_never_truncated_witness :
  ∃ o vec,
    glove_verse Sample.glove
      (tokenize_verse Sample.word_tokenize Sample.english_stopwords Sample.genesis)
    = inr o
    ∧ vector o = Some vec
    ∧ length vec
      = 4800 `max` length (flat_map (word_row Sample.glove)
                             (take MAX_LEN ["God"; "created"; "heavens"]))
    ∧ take (length (flat_map (word_row Sample.glove)
                      (take MAX_LEN ["God"; "created"; "heavens"]))) vec
      = flat_map (word_row Sample.glove) (take MAX_LEN ["God"; "created"; "heavens"]).
Proof.
  apply vector_never_truncated. vm_compute. reflexivity.
Defined.

Lemma unknown_verse_gets_zero_vector_witness :
  ∃ o, glove_verse Sample.glove
         (tokenize_verse Sample.word_tokenize Sample.english_stopwords SampleEdge.luke)
       = inr o
       ∧ vector o = Some (zeros 4800).
Proof.
  apply (unknown_verse_gets_zero_vector Sample.glove _ ["heavens"; "earth"]).
  - vm_compute. reflexivity.
  - repeat constructor.
Defined.

Lemma unknown_verse_self_similarity_witness :
  vector (built_verse Sample.word_tokenize Sample.english_stopwords Sample.glove
            SampleEdge.luke)
  = Some (zeros 4800)
  ∧ (sim_matrix SampleEdge.unknown_index !! 1 ≫= (.!! 1)) = Some fzero.
Proof.
  apply (unknown_verse_self_similarity Sample.word_tokenize Sample.english_stopwords
           SampleEdge.unknown_file Sample.glove_file SampleEdge.unknown_index 1
           (built_verse Sample.word_tokenize Sample.english_stopwords Sample.glove
              SampleEdge.luke)
           ["heavens"; "earth"] Sample.glove).
  - reflexivity.
  - reflexivity.
  - reflexivity.
  - reflexivity.
  - reflexivity.
  - vm_compute. reflexivity.
  - vm_compute. reflexivity.
  - vm_compute. reflexivity.
  - vm_compute. reflexivity.
  - repeat constructor.
Defined.

(** X21. On any built corpus of two verses or more, asking for all the
    verses similar to the first one ([total_values] at least [n - 1])
    returns a list that holds a record with the reference of the first
    verse itself. *)
Theorem first_verse_returned_for_itself {F : Type} `{Float64 F}
    (word_tokenize : string → list string) (english_stopwords : list string)
    (argsort : list F → list nat)
    bible_file glove_file _testing (st : Similarity F) v0 (k : Z) :
  argsort_permutes argsort →
  __init__ word_tokenize english_stopwords bible_file glove_file _testing = inr st →
  verse_data st !! 0 = Some v0 →
  2 ≤ length (verse_data st) →
  (Z.of_nat (length (verse_data st)) - 1 ≤ k)%Z →
  ∃ res r, get_similar_values argsort st (verse v0) k = inr res
           ∧ r ∈ res ∧ verse r = verse v0.
Proof.
  intros argsort_perm Hinit Hv0 Hn Hk.
  assert (Hin : ∃ v, v ∈ verse_data st ∧ verse v = verse v0).
  { exists v0. split; [eapply list_elem_of_lookup_2, Hv0 | reflexivity]. }
  destruct (built_query _ _ argsort argsort_perm _ _ _ _ _ k Hinit Hin)
    as (p' & row & res & _ & Hrow & Hlen & Hres & Hall).
  assert (Hranked : 0 ∈ ranked argsort row k).
  { unfold ranked. rewrite slice_to_all
      by (rewrite length_reverse, (argsort_length argsort argsort_perm), length_drop; lia).
    apply elem_of_reverse. rewrite (argsort_perm (drop 1 row)).
    apply elem_of_seq. rewrite length_drop. lia. }
  apply list_elem_of_lookup_1 in Hranked as [q Hq].
  destruct (Forall2_lookup_l _ _ _ _ _ Hall Hq) as (r & Hr & Hb0).
  exists res, r. split; [exact Hres|]. split; [eapply list_elem_of_lookup_2, Hr|].
  pose proof (init_lists_agree _ _ _ _ _ _ Hinit) as Hagree.
  destruct (Forall2_lookup_lr _ _ _ _ _ _ Hagree Hb0 Hv0) as [Hverse _].
  exact Hverse.
Qed.

Lemma first_verse_returned_for_itself_witness :
  ∃ res r, get_similar_values Sample.argsort Sample.index (verse Sample.genesis) 2 = inr res
           ∧ r ∈ res ∧ verse r = verse Sample.genesis.
Proof.
  apply (first_verse_returned_for_itself Sample.word_tokenize Sample.english_stopwords
           Sample.argsort
           Sample.bible_file Sample.glove_file false Sample.index
           (built_verse Sample.word_tokenize Sample.english_stopwords Sample.glove
              Sample.genesis) 2).
  - exact sample_argsort_permutes.
  - vm_compute. reflexivity.
  - vm_compute. reflexivity.
  - vm_compute. lia.
  - vm_compute. discriminate.
Defined.

(** ** The sample queries under any [np.argsort]

    The rows that the two queries below sort have no two equal entries,
    so every sort that meets the contract ranks them alike. *)

Lemma argsort_two (argsort : list Q → list nat) (x y : Q) :
  argsort_permutes argsort → argsort_ascending argsort →
  fltb x y = true → argsort [x; y] = [0; 1].
Proof.
  intros Hperm Hasc Hxy.
  pose proof (Hperm [x; y]) as Hp. simpl in Hp.
  apply Permutation_sym, Permutation_length_2_inv in Hp as [Hp|Hp]; [exact Hp|].
  pose proof (Hasc [x; y] 0 1 1 0 y x) as Hfalse.
  rewrite Hp in Hfalse.
  rewrite Hfalse in Hxy by (try reflexivity; lia). discriminate.
Qed.

Lemma sample_queries_any_argsort (argsort : list Q → list nat) :
  argsort_permutes argsort → argsort_ascending argsort →
  get_similar_values argsort Sample.index "Genesis 1:1" 10
  = inr [Sample.psalm; Sample.genesis]
  ∧ get_similar_values argsort Sample.index "John 11:35" 10
    = inr [Sample.psalm; Sample.genesis].
Proof.
  intros Hperm Hasc.
  assert (Hbv : bible_verses Sample.index = [Sample.genesis; Sample.psalm; Sample.john])
    by (vm_compute; reflexivity).
  assert (Hfind0 : find_verse (verse_data Sample.index) "Genesis 1:1" 0 = Some 0)
    by (vm_compute; reflexivity).
  assert (Hfind2 : find_verse (verse_data Sample.index) "John 11:35" 0 = Some 2)
    by (vm_compute; reflexivity).
  assert (Hrow0 : sim_matrix Sample.index !! 0 = Some [1; 25 # 169; 168 # 169]%Q)
    by (vm_compute; reflexivity).
  assert (Hrow2 : sim_matrix Sample.index !! 2 = Some [168 # 169; 24 # 169; 1]%Q)
    by (vm_compute; reflexivity).
  unfold get_similar_values, getitem. rewrite Hbv, Hfind0, Hfind2, Hrow0, Hrow2.
  split.
  - cbn [mbind result_bind mret result_ret drop].
    rewrite (argsort_two argsort _ _ Hperm Hasc) by (vm_compute; reflexivity).
    vm_compute. reflexivity.
  - cbn [mbind result_bind mret result_ret drop].
    rewrite (argsort_two argsort _ _ Hperm Hasc) by (vm_compute; reflexivity).
    vm_compute. reflexivity.
Qed.
